(** * emotion_transformer: a shallow embedding of the data pipeline, the
      model glue and the metrics, with the properties of its specification.

    Source files embedded here:
    - [emotion_transformer/dataloader.py]: [transform_data], [get_labels],
      [dataloader];
    - [emotion_transformer/model.py]: [layerwise_lr] and [forward] of the
      sentence encoder, the context classifier's [bin_loss] and [forward],
      [metrics], [f1_score];
    - [emotion_transformer/lightning.py]: [emo_dict], [EmotionModel.forward],
      [validation_step], [validation_end], [test_step], [test_end] and
      [configure_optimizers].

    Conventions.  A Python exception is a [Raise] of the [result] monad.  A
    tensor is the nested list of its entries.  A float is its exact rational
    value, or one of the IEEE specials (see [tfloat]); rounding is not
    modelled, so what is stated of floats is the value of one operation on
    exact operands, a NaN case or a bound, and counts are taken below the
    2^24 up to which float32 holds them exactly.  The pretrained encoder,
    the tokenizer and the classification head are libraries outside the
    repository: they are arguments of the definitions that call them, and
    the conditions under which they return (a tokenizer that keeps to the
    maximal length, labels that the head takes) are hypotheses. *)

From Stdlib Require Import ZArith QArith Qreduction Qpower Qfield Bool Lia Lqa.
From stdpp Require Import base option list strings gmap.

Local Open Scope Z_scope.

(* ===================================================================== *)
(** * Part I: definitions *)
(* ===================================================================== *)

(** ** Python exceptions *)

Inductive exn : Type :=
  | IndexError
  | KeyError (key : string)
  | ValueError
  | RuntimeError.

Inductive result (A : Type) : Type :=
  | Ok (a : A)
  | Raise (e : exn).
Arguments Ok {A} a.
Arguments Raise {A} e.

#[global] Instance result_ret : MRet result := @Ok.
#[global] Instance result_bind : MBind result :=
  fun A B (f : A -> result B) (m : result A) =>
    match m with
    | Ok a => f a
    | Raise e => Raise e
    end.

(** A left fold whose step may raise: a [for] loop over [xs] updating [acc]. *)
Fixpoint foldM {A B : Type} (f : B -> A -> result B) (xs : list A) (acc : B)
  : result B :=
  match xs with
  | [] => Ok acc
  | x :: xs' => acc' ← f acc x; foldM f xs' acc'
  end.

(** ** torch scalars and indexing *)

Module torch.

(** The value of a floating-point scalar: a rational, or an IEEE special.
    Results are kept in lowest terms, so equal values are equal terms.
    Signed zeros and rounding are not modelled. *)
Inductive tfloat : Type :=
  | NaN
  | PInf
  | NInf
  | Fin (q : Q).

Definition fin (q : Q) : tfloat := Fin (Qred q).

(** A count held in a float tensor. *)
Definition of_count (n : Z) : tfloat := fin (inject_Z n).

Definition Qsign (q : Q) : Z := Z.sgn (Qnum q).

Definition inf_of_sign (s : Z) : tfloat :=
  if s =? 0 then NaN else if 0 <? s then PInf else NInf.

Definition sign_of (x : tfloat) : Z :=
  match x with
  | NaN => 0
  | PInf => 1
  | NInf => -1
  | Fin q => Qsign q
  end.

Definition fadd (x y : tfloat) : tfloat :=
  match x, y with
  | NaN, _ | _, NaN => NaN
  | PInf, NInf | NInf, PInf => NaN
  | PInf, _ | _, PInf => PInf
  | NInf, _ | _, NInf => NInf
  | Fin a, Fin b => fin (a + b)
  end.

Definition fmul (x y : tfloat) : tfloat :=
  match x, y with
  | NaN, _ | _, NaN => NaN
  | Fin a, Fin b => fin (a * b)
  | _, _ => inf_of_sign (sign_of x * sign_of y)
  end.

(** Tensor division: a zero divisor gives [NaN] (0/0) or an infinity, and
    never raises. *)
Definition fdiv (x y : tfloat) : tfloat :=
  match x, y with
  | NaN, _ | _, NaN => NaN
  | Fin a, Fin b =>
      if Qsign b =? 0 then inf_of_sign (Qsign a) else fin (a / b)
  | Fin _, _ => fin 0
  | _, Fin b => if Qsign b =? 0 then x else inf_of_sign (sign_of x * Qsign b)
  | _, _ => NaN
  end.

(** Python's index rule on a dimension of [size] entries: [-size <= i < 0]
    counts from the end, anything outside [-size, size) raises. *)
Definition norm_index (size : nat) (i : Z) : result nat :=
  if (0 <=? i) && (i <? Z.of_nat size) then Ok (Z.to_nat i)
  else if (- Z.of_nat size <=? i) && (i <? 0) then Ok (Z.to_nat (i + Z.of_nat size))
  else Raise IndexError.

(** [torch.argmax] of one row: the index of the first maximal entry. *)
Fixpoint argmax_from (best_i : Z) (best : Q) (i : Z) (row : list Q) : Z :=
  match row with
  | [] => best_i
  | x :: row' =>
      if Qle_bool x best then argmax_from best_i best (i + 1) row'
      else argmax_from i x (i + 1) row'
  end.

Definition argmax (row : list Q) : result Z :=
  match row with
  | [] => Raise IndexError
  | x :: row' => Ok (argmax_from 0 x 1 row')
  end.

(** [a == b] on two 1-d tensors, with broadcasting of a length-1 operand. *)
Definition eq_broadcast (a b : list Z) : result (list bool) :=
  if (length a =? length b)%nat then Ok (zip_with Z.eqb a b)
  else if (length a =? 1)%nat then Ok (map (fun y => hd 0 a =? y) b)
  else if (length b =? 1)%nat then Ok (map (fun x => x =? hd 0 b) a)
  else Raise RuntimeError.

(** [.float().mean()] of a boolean tensor; the mean of no entry is [NaN]. *)
Definition mean_bool (bs : list bool) : tfloat :=
  fdiv (of_count (Z.of_nat (length (filter (fun b => b = true) bs))))
       (of_count (Z.of_nat (length bs))).

Definition sum (xs : list Z) : Z := foldr Z.add 0 xs.
Definition sum2 (m : list (list Z)) : Z := sum (map sum m).

(** [m.diagonal()]: the entries [m[k][k]]. *)
Fixpoint diagonal_from (k : nat) (m : list (list Z)) : list Z :=
  match m with
  | [] => []
  | row :: m' =>
      match row !! k with
      | Some x => x :: diagonal_from (S k) m'
      | None => []
      end
  end.
Definition diagonal (m : list (list Z)) : list Z := diagonal_from 0 m.

Definition zeros (rows cols : nat) : list (list Z) :=
  replicate rows (replicate cols 0).

End torch.

(** ** dataloader.py *)

Module dataloader.

(** One row of the SemEval data frame. *)
Record conversation : Type := {
  turn1 : string;
  turn2 : string;
  turn3 : string;
  label : string
}.

(** [torch.tensor] of a list of rows of id lists: the nesting has to be
    rectangular, or the constructor raises. *)
Definition torch_tensor (rows : list (list (list Z))) : result (list (list (list Z))) :=
  match concat rows with
  | [] => Ok rows
  | ids0 :: _ =>
      if forallb (fun ids => (length ids =? length ids0)%nat) (concat rows)
      then Ok rows
      else Raise ValueError
  end.

Section transform.

(** [tokenizer.encode(turn, add_special_tokens=True, max_length=n)] of the
    pretrained DistilBert tokenizer. *)
Variable encode : string -> nat -> list Z.

Definition tokenize_fct (max_seq_len : nat) (turn : string) : list Z :=
  encode turn max_seq_len.

(** [ids + [0] * (max_seq_len - len(ids))]: a list times a count that is
    not positive is the empty list, as with the truncated subtraction. *)
Definition pad (max_seq_len : nat) (ids : list Z) : list Z :=
  ids ++ replicate (max_seq_len - length ids)%nat 0.

(** [torch.where(padded != 0, ones, zeros)], entry by entry. *)
Definition attention_of (x : Z) : Z := if negb (x =? 0) then 1 else 0.

Definition transform_data (df : list conversation) (max_seq_len : nat)
  : result (list (list (list Z)) * list (list (list Z))) :=
  let tokenized :=
    map (fun r => map (tokenize_fct max_seq_len) [turn1 r; turn2 r; turn3 r]) df in
  padded ← torch_tensor (map (fun idx => map (pad max_seq_len) idx) tokenized);
  let attention_mask := map (map (map attention_of)) padded in
  Ok (padded, attention_mask).

End transform.

Definition lookup_label (emo_dict : gmap string Z) (l : string) : result Z :=
  match emo_dict !! l with
  | Some v => Ok v
  | None => Raise (KeyError l)
  end.

(** [[emo_dict[label] for label in df["label"].values]]: the first label
    that is no key of the dictionary raises. *)
Definition get_labels (df : list conversation) (emo_dict : gmap string Z)
  : result (list Z) :=
  mapM (fun r => lookup_label emo_dict (label r)) df.

(** *** dataloader *)

(** What [dataloader] can raise: an exception of its callees, or the
    AssertionError of [TensorDataset]. *)
Inductive raised : Type :=
  | Exn (e : exn)
  | AssertionError.

(** A [TensorDataset] of three tensors or of two: its examples are the
    tuples of the entries at one index. *)
Inductive TensorDataset : Type :=
  | with_labels (examples : list (list (list Z) * list (list Z) * Z))
  | without_labels (examples : list (list (list Z) * list (list Z))).

(** [TensorDataset] asserts that all its tensors have the size of the first
    one at dimension 0. *)
Definition TensorDataset3 (padded attention_mask : list (list (list Z)))
    (labels : list Z) : raised + TensorDataset :=
  if (length attention_mask =? length padded)%nat
     && (length labels =? length padded)%nat
  then inr (with_labels (zip (zip padded attention_mask) labels))
  else inl AssertionError.

Definition TensorDataset2 (padded attention_mask : list (list (list Z)))
  : raised + TensorDataset :=
  if (length attention_mask =? length padded)%nat
  then inr (without_labels (zip padded attention_mask))
  else inl AssertionError.

(** [DistributedSampler(dataset)], in a run whose process group the trainer
    has set up. *)
Record DistributedSampler : Type := {
  sampled : TensorDataset
}.

Record data_loader : Type := {
  dataset : TensorDataset;
  batch_size : Z;
  shuffle : bool;
  sampler : option DistributedSampler;
  num_workers : Z
}.

(** [len(dataset)] *)
Definition dataset_length (dataset : TensorDataset) : nat :=
  match dataset with
  | with_labels examples => length examples
  | without_labels examples => length examples
  end.

(** [DataLoader(dataset, batch_size, shuffle, sampler, num_workers)]: the
    number of workers is not negative, a sampler excludes shuffling, the
    [RandomSampler] that shuffling makes refuses a dataset without
    examples, and the batch size is positive. *)
Definition DataLoader (dataset : TensorDataset) (batch_size : Z) (shuffle : bool)
    (sampler : option DistributedSampler) (num_workers : Z)
  : raised + data_loader :=
  if (num_workers <? 0)
     || (match sampler with Some _ => shuffle | None => false end)
     || (shuffle && (dataset_length dataset =? 0)%nat)
     || (batch_size <=? 0)
  then inl (Exn ValueError)
  else inr {| dataset := dataset; batch_size := batch_size; shuffle := shuffle;
              sampler := sampler; num_workers := num_workers |}.

(** [open_data] reads the data frame at [path]; [encode] is the tokenizer
    of [transform_data]. *)
Definition dataloader (open_data : string -> list conversation)
    (encode : string -> nat -> list Z) (path : string) (max_seq_len : nat)
    (batch_size : Z) (emo_dict : gmap string Z) (use_ddp labels : bool)
  : raised + data_loader :=
  let df := open_data path in
  match transform_data encode df max_seq_len with
  | Raise e => inl (Exn e)
  | Ok (padded, attention_mask) =>
      let dataset :=
        if labels then
          match get_labels df emo_dict with
          | Raise e => inl (Exn e)
          | Ok ls => TensorDataset3 padded attention_mask ls
          end
        else TensorDataset2 padded attention_mask in
      match dataset with
      | inl e => inl e
      | inr dataset =>
          let train_sampler :=
            if use_ddp then Some {| sampled := dataset |} else None in
          DataLoader dataset batch_size
                     (match train_sampler with None => true | Some _ => false end)
                     train_sampler 3
      end
  end.

End dataloader.

(** ** model.py *)

Module model.
Import torch.

(** *** sentence_embeds_model.layerwise_lr *)

(** What a parameter group holds: the encoder's embedding layer, or its
    transformer layer [l]. *)
Inductive params_of : Type :=
  | bert_embeddings
  | bert_transformer_layer (l : nat).

Record param_group : Type := {
  params : params_of;
  lr : Q
}.

(** [num_layers] is [bert.config.n_layers]. *)
Definition layerwise_lr (num_layers : nat) (lr decay : Q) : list param_group :=
  let opt_parameters :=
    [ {| params := bert_embeddings;
         lr := (lr * decay ^ Z.of_nat num_layers)%Q |} ] in
  opt_parameters ++
    map (fun l => {| params := bert_transformer_layer l;
                     lr := (lr * decay ^ (Z.of_nat num_layers - Z.of_nat l + 1))%Q |})
        (seq 0 num_layers).

(** *** metrics *)

Record scores (L : Type) : Type := {
  val_loss : L;
  val_acc : tfloat;
  tp : Z;
  fp : Z;
  fn : Z
}.
Arguments val_loss {L} s.
Arguments val_acc {L} s.
Arguments tp {L} s.
Arguments fp {L} s.
Arguments fn {L} s.

(** [cm[label.long(), pred.long()] += 1] *)
Definition cm_incr (cm : list (list Z)) (lp : Z * Z) : result (list (list Z)) :=
  i ← norm_index 4 lp.1;
  j ← norm_index 4 lp.2;
  Ok (alter (alter Z.succ j) i cm).

(** The confusion matrix is a float tensor whose entries are counts; a count
    is held exactly as long as it stays below 2^24, and is modelled by the
    integer it is. *)
Definition confusion (labels preds : list Z) : result (list (list Z)) :=
  foldM cm_incr (zip labels preds) (zeros 4 4).

Definition metrics {L : Type} (loss : L) (logits : list (list Q)) (labels : list Z)
  : result (scores L) :=
  preds ← mapM argmax logits;
  eqs ← eq_broadcast labels preds;
  let acc := mean_bool eqs in
  cm ← confusion labels preds;
  let tp := sum (drop 1 (diagonal cm)) in
  let fp := sum2 (map (drop 1) cm) - tp in
  let fn := sum2 (drop 1 cm) - tp in
  Ok {| val_loss := loss; val_acc := acc; tp := tp; fp := fp; fn := fn |}.

(** *** f1_score *)

Record prec_rec_f1 : Type := {
  precision : tfloat;
  recall : tfloat;
  f1 : tfloat
}.

(** The arguments are the summed [tp], [fp] and [fn] tensors of
    [validation_end]. *)
Definition f1_score (tp fp fn : tfloat) : prec_rec_f1 :=
  let precision := fdiv tp (fadd tp fp) in
  let recall := fdiv tp (fadd tp fn) in
  {| precision := precision;
     recall := recall;
     f1 := fdiv (fmul (fin 2) (fmul precision recall)) (fadd precision recall) |}.

(** *** context_classifier_model *)

Module context_classifier_model.
Section layers.

(** [E]: a sentence embedding; [V]: a vector of [projection_size]. *)
Context {E V : Type}.

(** The layers built by [__init__]. *)
Variable projection : E -> V.
Variable position_embeds : nat -> V.
Variable norm : V -> V.
(** Dropout zeroes entries at random in training: its action on the
    vector of batch item [b] and turn [t]. *)
Variable drop : nat -> nat -> V -> V.
Variable add : V -> V -> V.

(** [DistilBertForSequenceClassification] with [num_labels=4]: the logits
    of a batch of sequences, and the library's loss, which for more than
    one label is the softmax cross entropy over [num_labels] classes. *)
Variable context_transformer_logits : list (list V) -> list (list Q).
Variable cross_entropy : nat -> list (list Q) -> list Z -> tfloat.
Definition num_labels : nat := 4.

(** [self.others_label = emo_dict["others"]] and
    [torch.nn.BCEWithLogitsLoss()]. *)
Variable others_label : Z.
Variable bin_loss_fct : list Q -> list tfloat -> tfloat.

(** What the head returns: the tuple [(logits,)] without labels, the
    tuple [(loss, logits)] with them. *)
Definition head_outputs (labels : option (list Z)) : Type :=
  match labels with
  | None => list (list Q)
  | Some _ => (tfloat * list (list Q))%type
  end.

Definition context_transformer (inputs_embeds : list (list V))
    (labels : option (list Z)) : head_outputs labels :=
  let logits := context_transformer_logits inputs_embeds in
  match labels with
  | None => logits
  | Some ls => (cross_entropy num_labels logits ls, logits)
  end.

(** What [forward] returns: the logits, or the pair [(loss, logits)]. *)
Inductive outputs : Type :=
  | logits_only (logits : list (list Q))
  | loss_and_logits (loss : tfloat) (logits : list (list Q)).

Definition bin_labels_of (labels : list Z) : list tfloat :=
  map (fun l => if l =? others_label then of_count 1 else of_count 0) labels.

(** [logits[:, self.others_label]] *)
Definition column (logits : list (list Q)) (c : Z) : result (list Q) :=
  mapM (fun row =>
          j ← norm_index (length row) c;
          from_option Ok (Raise IndexError) (row !! j)) logits.

Definition bin_loss (logits : list (list Q)) (labels : list Z) : result tfloat :=
  let bin_labels := bin_labels_of labels in
  bin_logits ← column logits others_label;
  Ok (bin_loss_fct bin_logits bin_labels).

(** [torch.arange(3).expand(sentence_embeds.shape[:2])]: every item of the
    batch has to hold three turns. *)
Definition position_ids_of (sentence_embeds : list (list E)) : result (list (list nat)) :=
  mapM (fun turns : list E =>
          if (length turns =? 3)%nat then Ok (seq 0 3) else Raise RuntimeError)
       sentence_embeds.

(** The sequence handed to the head as [inputs_embeds]. *)
Definition inputs_embeds_of (sentence_embeds : list (list E)) : result (list (list V)) :=
  position_ids ← position_ids_of sentence_embeds;
  let position_embeds := map (map position_embeds) position_ids in
  let sentence_embeds :=
    zip_with (zip_with add) (map (map projection) sentence_embeds) position_embeds in
  let sentence_embeds :=
    imap (fun b => imap (fun t v => drop b t (norm v))) sentence_embeds in
  Ok (map reverse sentence_embeds).

Definition forward (sentence_embeds : list (list E)) (labels : option (list Z))
  : result outputs :=
  inputs_embeds ← inputs_embeds_of sentence_embeds;
  match labels with
  | None => Ok (logits_only (context_transformer inputs_embeds None))
  | Some ls =>
      let '(loss, logits) := context_transformer inputs_embeds (Some ls) in
      b ← bin_loss logits ls;
      Ok (loss_and_logits (fadd loss b) logits)
  end.

End layers.
End context_classifier_model.

(** *** sentence_embeds_model.forward *)

Module sentence_embeds_model.

(** [t.view(-1, 3, embedding_size)] of a 2-d tensor whose rows are vectors
    of [embedding_size] entries: the rows are regrouped in threes, and their
    number has to be a multiple of three. *)
Definition view3 {A : Type} (rows : list A) : result (list (list A)) :=
  if (length rows mod 3 =? 0)%nat
  then Ok (reshape (replicate (length rows / 3) 3%nat) rows)
  else Raise RuntimeError.

Section forward.

(** [H]: a vector of [hidden_size] entries; [Emb]: a vector of
    [embedding_size], that is twice [hidden_size], entries. *)
Context {H Emb : Type}.

(** [self.transformer] with [output_hidden_states=True], on rows of ids and
    their masks: the last hidden states ([output[0]], the token vectors of
    every row) and the tuple of the hidden states of all layers
    ([output[1]]). *)
Variable transformer :
  list (list Z) -> list (list Z) -> list (list H) * list (list (list H)).
(** [torch.mean(_, 1)] over the token vectors of a row, and
    [torch.cat(_, dim=-1)] of two vectors. *)
Variable mean : list H -> H.
Variable cat : H -> H -> Emb.

(** The call with [input_ids] and [attention_mask], as [EmotionModel] makes
    it; [flatten(end_dim=1)] puts the turns of all items in one list. *)
Definition forward (input_ids attention_mask : list (list (list Z)))
  : result (list (list Emb)) :=
  let input_ids := concat input_ids in
  let attention_mask := concat attention_mask in
  let output := transformer input_ids attention_mask in
  cls ← mapM (fun row => from_option Ok (Raise IndexError) (row !! 0%nat)) output.1;
  last_hidden ← from_option Ok (Raise IndexError) (last output.2);
  let hidden_mean := map mean last_hidden in
  if (length cls =? length hidden_mean)%nat
  then view3 (zip_with cat cls hidden_mean)
  else Raise RuntimeError.

End forward.

End sentence_embeds_model.

End model.

(** ** lightning.py *)

Module EmotionModel.

Definition emo_dict : gmap string Z :=
  {[ "others" := 0; "sad" := 1; "angry" := 2; "happy" := 3 ]}.

(** What [forward] reads and what autograd keeps: the trainer's epoch
    counter and torch's global gradient mode. *)
Record state : Type := {
  current_epoch : Z;
  grad_enabled : bool
}.

Definition set_grad_enabled (b : bool) (s : state) : state :=
  {| current_epoch := current_epoch s; grad_enabled := b |}.

(** [with torch.no_grad(): body]: recording is switched off for the body and
    the mode found on entry is restored on exit. *)
Definition no_grad {A : Type} (body : state -> A * state) (s : state) : A * state :=
  let prev := grad_enabled s in
  let r := body (set_grad_enabled false s) in
  (r.1, set_grad_enabled prev r.2).

(** A value with the mark of whether autograd recorded its computation. *)
Record traced (A : Type) : Type := {
  value : A;
  recorded : bool
}.
Arguments value {A} t.
Arguments recorded {A} t.

Section forward.

Context {Ids Mask Emb Out : Type}.
Variable sentence_embeds_model : Ids -> Mask -> Emb.
Variable context_classifier_model : Emb -> option (list Z) -> Out.
(** [hparams.frozen_epochs] *)
Variable frozen_epochs : Z.

Definition call_encoder (input_ids : Ids) (attention_mask : Mask) (s : state)
  : traced Emb * state :=
  ({| value := sentence_embeds_model input_ids attention_mask;
      recorded := grad_enabled s |}, s).

(** The result of [forward], and whether the encoder's pass was recorded. *)
Definition forward (input_ids : Ids) (attention_mask : Mask)
    (labels : option (list Z)) (s : state) : traced Out * state :=
  let r :=
    if current_epoch s <? frozen_epochs
    then no_grad (call_encoder input_ids attention_mask) s
    else call_encoder input_ids attention_mask s in
  let sentence_embeds := r.1 in
  ({| value := context_classifier_model (value sentence_embeds) labels;
      recorded := recorded sentence_embeds |}, r.2).

(** The frozen phase, as [forward] tests it. *)
Definition frozen (s : state) : bool := current_epoch s <? frozen_epochs.

End forward.

(** *** configure_optimizers *)

(** The parameters a group of the optimizer holds: those of a group of the
    encoder, or the classifier's. *)
Inductive optimizer_params : Type :=
  | encoder_params (p : model.params_of)
  | classifier_params.

(** A dict of [opt_parameters]: its "params", and its "lr" when it has one. *)
Record optimizer_group : Type := {
  group_params : optimizer_params;
  group_lr : option Q
}.

(** A dict of [layerwise_lr], which has both keys. *)
Definition of_param_group (g : model.param_group) : optimizer_group :=
  {| group_params := encoder_params (model.params g);
     group_lr := Some (model.lr g) |}.

(** [torch.optim.AdamW(groups, lr=lr)]: a negative default rate is refused,
    and a group without "lr" gets the default. The optimizer is seen as its
    list of groups with their rates. *)
Definition AdamW (groups : list optimizer_group) (lr : Q)
  : result (list (optimizer_params * Q)) :=
  if Qle_bool 0 lr
  then Ok (map (fun g => (group_params g, default lr (group_lr g))) groups)
  else Raise ValueError.

(** [torch.optim.lr_scheduler.CosineAnnealingLR(optimizer, T_max)] *)
Record CosineAnnealingLR : Type := {
  scheduled : list (optimizer_params * Q);
  T_max : Z
}.

(** [num_layers] is the number of layers of the encoder; [lr] and
    [layerwise_decay] are the hyperparameters of these names. *)
Definition configure_optimizers (num_layers : nat) (lr layerwise_decay : Q)
  : result (list (list (optimizer_params * Q)) * list CosineAnnealingLR) :=
  let opt_parameters :=
    map of_param_group (model.layerwise_lr num_layers lr layerwise_decay) in
  let opt_parameters :=
    opt_parameters ++ [ {| group_params := classifier_params; group_lr := None |} ] in
  optimizer ← AdamW opt_parameters lr;
  let scheduler := {| scheduled := optimizer; T_max := 10 |} in
  Ok ([optimizer], [scheduler]).

(** *** validation_step and validation_end

    The trainer modes other than dp and ddp2 are modelled: there the values
    of a step's dict are the scalars of [metrics], and the reductions over
    the devices are skipped. *)

Section validation.

Context {Ids Mask : Type}.
(** [self.forward] called with labels: the loss and the logits. *)
Variable forward_with_labels :
  Ids -> Mask -> list Z -> result (torch.tfloat * list (list Q)).

Definition validation_step (batch : Ids * Mask * list Z)
  : result (model.scores torch.tfloat) :=
  let '(input_ids, attention_mask, labels) := batch in
  '(loss, logits) ← forward_with_labels input_ids attention_mask labels;
  model.metrics loss logits labels.

End validation.

(** [metric_total = 0], and [metric_total += output[metric_name]] for every
    output. The counts tp, fp and fn are added as the integers they are:
    the float32 sums of the code are these as long as they stay below
    2^24. *)
Definition metric_total {A : Type} (add : A -> A -> A) (zero : A)
    (metric : model.scores torch.tfloat -> A)
    (outputs : list (model.scores torch.tfloat)) : A :=
  fold_left (fun total output => add total (metric output)) outputs zero.

(** [tqdm_dict] at the end: the five keys of the steps' dicts, and the three
    keys that [update(prec_rec_f1)] adds. *)
Record tqdm_dict : Type := {
  totals : model.scores torch.tfloat;
  prec_rec_f1 : model.prec_rec_f1
}.

Record validation_result : Type := {
  progress_bar : tqdm_dict;
  log : tqdm_dict;
  val_loss : torch.tfloat
}.

(** [outputs[0]] raises on the empty list. The counts tp, fp and fn are
    totals; the other metrics are divided by [len(outputs)]. *)
Definition validation_end (outputs : list (model.scores torch.tfloat))
  : result validation_result :=
  match outputs with
  | [] => Raise IndexError
  | _ :: _ =>
      let n := torch.of_count (Z.of_nat (length outputs)) in
      let mean metric :=
        torch.fdiv (metric_total torch.fadd (torch.of_count 0) metric outputs) n in
      let tp := metric_total Z.add 0 model.tp outputs in
      let fp := metric_total Z.add 0 model.fp outputs in
      let fn := metric_total Z.add 0 model.fn outputs in
      let tqdm_dict :=
        {| totals := {| model.val_loss := mean model.val_loss;
                        model.val_acc := mean model.val_acc;
                        model.tp := tp; model.fp := fp; model.fn := fn |};
           prec_rec_f1 :=
             model.f1_score (torch.of_count tp) (torch.of_count fp)
                            (torch.of_count fn) |} in
      Ok {| progress_bar := tqdm_dict;
            log := tqdm_dict;
            val_loss := model.val_loss (totals tqdm_dict) |}
  end.

Definition test_step {Ids Mask : Type}
    (forward_with_labels : Ids -> Mask -> list Z
                           -> result (torch.tfloat * list (list Q)))
    (batch : Ids * Mask * list Z) : result (model.scores torch.tfloat) :=
  validation_step forward_with_labels batch.

Definition test_end (outputs : list (model.scores torch.tfloat))
  : result validation_result :=
  validation_end outputs.

End EmotionModel.

(** ** Vocabulary of the properties *)

Module spec.
Import torch.

(** The quotient of two counts as a float: undefined on a zero divisor. *)
Definition ratio_of_counts (a b : nat) : tfloat :=
  if (b =? 0)%nat then NaN
  else fin (inject_Z (Z.of_nat a) / inject_Z (Z.of_nat b)).

(** A class id of the four-class problem. *)
Definition class_id (x : Z) : Prop := 0 <= x <= 3.

(** The examples of a class other than "others" (id 0). *)
Definition non_others (x : Z) : bool := (1 <=? x) && (x <=? 3).
Definition count_non_others (xs : list Z) : Z :=
  Z.of_nat (length (List.filter non_others xs)).

(** Counts over the (label, prediction) pairs the loop of [metrics] visits. *)
Definition hit (lp : Z * Z) : bool := (lp.1 =? lp.2) && non_others lp.1.
Definition count_pairs (f : Z * Z -> bool) (ps : list (Z * Z)) : Z :=
  Z.of_nat (length (List.filter f ps)).

Definition b2z (b : bool) : Z := if b then 1 else 0.

Definition shape44 (cm : list (list Z)) : Prop :=
  length cm = 4%nat /\ Forall (fun row => length row = 4%nat) cm.

(** The entry at (i, j, k) of a tensor of three dimensions. *)
Definition entry3 (t : list (list (list Z))) (i j k : nat) : option Z :=
  row ← t !! i; ids ← row !! j; ids !! k.

(** The padded ids of a data frame, turn by turn. *)
Definition padded_rows (encode : string -> nat -> list Z)
    (df : list dataloader.conversation) (max_seq_len : nat) : list (list (list Z)) :=
  map (fun r => map (fun turn => dataloader.pad max_seq_len (encode turn max_seq_len))
                    [dataloader.turn1 r; dataloader.turn2 r; dataloader.turn3 r]) df.

(** A record whose label is a key of the dictionary. *)
Definition known (emo_dict : gmap string Z) (r : dataloader.conversation) : Prop :=
  is_Some (emo_dict !! dataloader.label r).

(** A turn after the projection, its positional embedding, the layer norm
    and the dropout. *)
Definition embedded_turn {E V : Type} (projection : E -> V)
    (position_embeds : nat -> V) (norm : V -> V) (drop : nat -> nat -> V -> V)
    (add : V -> V -> V) (b t : nat) (e : E) : V :=
  drop b t (norm (add (projection e) (position_embeds t))).

(** An index that [cm[label, pred]] accepts, counting from either end. *)
Definition index4 (x : Z) : Prop := -4 <= x < 4.

(** A pair whose prediction is the label, and the number of them. *)
Definition agree (lp : Z * Z) : bool := lp.1 =? lp.2.
Definition matches (labels preds : list Z) : nat :=
  length (List.filter agree (zip labels preds)).

(** The prediction of a row of logits, 0 for the empty row. *)
Definition argmax_or0 (row : list Q) : Z :=
  match argmax row with
  | Ok p => p
  | Raise _ => 0
  end.

(** An example of a batch, with class ids for its label and its prediction. *)
Definition class_example (rl : list Q * Z) : Prop :=
  class_id rl.2 /\ exists p, argmax rl.1 = Ok p /\ class_id p.

(** A pair of class "others" predicted as "others". *)
Definition both_others (lp : Z * Z) : bool := (lp.1 =? 0) && (lp.2 =? 0).

(** A pair that [cm[label, pred]] accepts. *)
Definition index4_pair (lp : Z * Z) : Prop := index4 lp.1 /\ index4 lp.2.

(** A batch of class ids: as many rows of logits as labels, every label and
    every prediction a class id. *)
Definition class_batch (logits : list (list Q)) (labels : list Z) : Prop :=
  length logits = length labels /\ Forall class_example (zip logits labels).

(** The scores of a batch, written with counts over its pairs. *)
Definition scores_of {L : Type} (loss : L) (logits : list (list Q))
    (labels : list Z) : model.scores L :=
  let preds := map argmax_or0 logits in
  {| model.val_loss := loss;
     model.val_acc := ratio_of_counts (matches labels preds) (length labels);
     model.tp := count_pairs hit (zip labels preds);
     model.fp := count_non_others preds - count_pairs hit (zip labels preds);
     model.fn := count_non_others labels - count_pairs hit (zip labels preds) |}.

(** The turns of a data frame in reading order, and the length a turn has
    after [tokenize_fct] and the padding. *)
Definition turns_of (df : list dataloader.conversation) : list string :=
  concat (map (fun r => [dataloader.turn1 r; dataloader.turn2 r; dataloader.turn3 r]) df).
Definition padded_length (encode : string -> nat -> list Z) (max_seq_len : nat)
    (turn : string) : nat :=
  length (dataloader.pad max_seq_len (encode turn max_seq_len)).


(** A tokenizer that keeps to [max_seq_len] on the turns of a data frame. *)
Definition truncated (encode : string -> nat -> list Z)
    (df : list dataloader.conversation) (max_seq_len : nat) : Prop :=
  Forall (fun turn => (length (encode turn max_seq_len) <= max_seq_len)%nat)
         (turns_of df).

(** The shape of the tensor that [torch.tensor] makes of a rectangular list
    of lists of lists: the empty list gives the shape (0,), and a list of
    empty lists the shape (N, 0). *)
Definition shape_of (t : list (list (list Z))) : list nat :=
  match t with
  | [] => [0%nat]
  | [] :: _ => [length t; 0%nat]
  | (ids :: _) as row :: _ => [length t; length row; length ids]
  end.

(** Labels that the classification head takes for a batch of [n] items: one
    class id for each item. *)
Definition valid_labels (n : nat) (labels : list Z) : Prop :=
  length labels = n /\ Forall class_id labels.

(** A count that a float32 tensor holds exactly. *)
Definition exact_count (n : nat) : Prop := Z.of_nat n < 2 ^ 24.

End spec.

(** ** Small inputs on which the properties are instantiated *)

Module examples.
Import torch dataloader.

(** Logits of a batch of four whose argmax predictions are [1,1,2,0]. *)
Definition example_logits : list (list Q) :=
  [ [0; 1; 0; 0]; [0.25; 0.5; 0.125; 0.125]; [0; 0; 1; 0]; [1; 0; 0; 0] ]%Q.

(** A tokenizer that keeps the contract of [encode]: the character codes
    between the ids 101 and 102, cut at [max_length]. *)
Definition toy_encode (turn : string) (max_length : nat) : list Z :=
  take max_length
       (101 :: map (fun c => Z.of_nat (Ascii.nat_of_ascii c)) (String.list_ascii_of_string turn)
            ++ [102]).

Definition example_df : list conversation :=
  [ {| turn1 := "I am fine"; turn2 := "ok"; turn3 := ""; label := "happy" |} ].

Definition row_with (l : string) : conversation :=
  {| turn1 := "a"; turn2 := "b"; turn3 := "c"; label := l |}.

(** A classifier over integers: the identity for the projection, the norm
    and the dropout, the index for the positional embedding, and a head that
    votes for class 1. *)
Definition toy_position_embeds (t : nat) : Z := Z.of_nat t.
Definition toy_drop (b t : nat) (v : Z) : Z := v.
Definition toy_head_logits (inputs_embeds : list (list Z)) : list (list Q) :=
  map (fun _ => [0; 1; 0; 0]%Q) inputs_embeds.
Definition toy_cross_entropy (num_labels : nat) (logits : list (list Q))
    (labels : list Z) : tfloat := Fin 2.
Definition toy_bin_loss_fct (bin_logits : list Q) (bin_labels : list tfloat)
  : tfloat := Fin 1.
Definition example_embeds : list (list Z) := [ [10; 20; 30] ].

(** A validation step at epoch 2: the evaluation loop of the trainer has
    switched the recording of gradients off before it calls the model. *)
Definition validation_at_epoch_two : EmotionModel.state :=
  {| EmotionModel.current_epoch := 2; EmotionModel.grad_enabled := false |}.

(** A model whose logits are the rows it is given, with the loss 2, and an
    epoch of two batches of two examples cut out of [example_logits]. *)
Definition toy_forward (input_ids : list (list Q)) (attention_mask : unit)
    (labels : list Z) : result (torch.tfloat * list (list Q)) :=
  Ok (Fin 2, input_ids).
Definition example_batches : list (list (list Q) * unit * list Z) :=
  [ (take 2 example_logits, tt, [1; 2]); (drop 2 example_logits, tt, [2; 0]) ].
Definition example_outs : list (torch.tfloat * list (list Q)) :=
  [ (Fin 2, take 2 example_logits); (Fin 2, drop 2 example_logits) ].

(** An encoder over integers: the vector of a token is its id, at every
    layer; the mean of a row is its sum, and two vectors are paired. *)
Definition toy_transformer (input_ids attention_mask : list (list Z))
  : list (list Z) * list (list (list Z)) :=
  (input_ids, [input_ids; input_ids]).
Definition toy_mean (row : list Z) : Z := foldr Z.add 0 row.
Definition example_ids : list (list (list Z)) :=
  [ [ [101; 7; 102]; [101; 8; 102]; [101; 9; 102] ];
    [ [101; 1; 102]; [101; 2; 102]; [101; 3; 102] ] ].

End examples.

(* ===================================================================== *)
(** * Part II: properties *)
(* ===================================================================== *)

(** ** Float values *)

Section tfloat_facts.
Import torch.

Lemma Qsign_Qeq (a b : Q) : (a == b)%Q -> Qsign a = Qsign b.
Proof.
  unfold Qeq, Qsign. intros H.
  assert (Ha : Z.sgn (Qnum a * Z.pos (Qden b)) = Z.sgn (Qnum a)).
  { rewrite Z.sgn_mul. simpl. lia. }
  assert (Hb : Z.sgn (Qnum b * Z.pos (Qden a)) = Z.sgn (Qnum b)).
  { rewrite Z.sgn_mul. simpl. lia. }
  congruence.
Qed.

Lemma Qsign_Qred (q : Q) : Qsign (Qred q) = Qsign q.
Proof. apply Qsign_Qeq, Qred_correct. Qed.

Lemma Qsign_inject_Z (n : Z) : Qsign (inject_Z n) = Z.sgn n.
Proof. reflexivity. Qed.

Lemma fin_Qeq (a b : Q) : (a == b)%Q -> fin a = fin b.
Proof. intros H. unfold fin. f_equal. by apply Qred_complete. Qed.

Lemma fin_zero : fin 0 = Fin 0.
Proof. reflexivity. Qed.

Lemma fadd_of_count (a b : Z) : fadd (of_count a) (of_count b) = of_count (a + b).
Proof.
  unfold of_count, fadd, fin. apply fin_Qeq.
  rewrite !Qred_correct, inject_Z_plus. reflexivity.
Qed.

(** A quotient of two counts: [NaN] or an infinity on a zero divisor, else
    the exact quotient. *)
Lemma fdiv_of_count (a b : Z) :
  fdiv (of_count a) (of_count b) =
    if b =? 0 then inf_of_sign (Z.sgn a) else fin (inject_Z a / inject_Z b).
Proof.
  unfold of_count, fdiv, fin. rewrite !Qsign_Qred, !Qsign_inject_Z.
  destruct (Z.eqb_spec b 0) as [->|Hb].
  - reflexivity.
  - destruct (Z.eqb_spec (Z.sgn b) 0) as [Hs|_]; [lia|].
    apply fin_Qeq. by rewrite !Qred_correct.
Qed.

Lemma fdiv_zero_count (b : Z) : b <> 0 -> fdiv (of_count 0) (of_count b) = Fin 0.
Proof.
  intros Hb. rewrite fdiv_of_count.
  destruct (Z.eqb_spec b 0) as [?|_]; [done|].
  rewrite <- fin_zero. apply fin_Qeq. unfold Qdiv. apply Qmult_0_l.
Qed.

End tfloat_facts.

(** ** f1_score *)

Section f1_score_facts.
Import torch model spec.

Lemma fdiv_counts (a b : nat) :
  (b = 0 -> a = 0)%nat ->
  fdiv (of_count (Z.of_nat a)) (of_count (Z.of_nat b)) = ratio_of_counts a b.
Proof.
  intros Hab. rewrite fdiv_of_count. unfold ratio_of_counts.
  destruct (Nat.eqb_spec b 0) as [->|Hb].
  - rewrite Hab by done. reflexivity.
  - destruct (Z.eqb_spec (Z.of_nat b) 0); [lia|done].
Qed.

(** C6. [f1_score] computes precision = tp/(tp+fp), recall = tp/(tp+fn) and
    f1 = 2*precision*recall/(precision+recall); on the counts 3, 1, 1 the
    three values are 0.75; a zero denominator raises nothing and gives the
    undefined value [NaN], as for the counts 0, 0, 5, whose recall is 0 and
    whose precision is undefined. *)
Theorem f1_score_formulas_and_zero_denominators :
  (forall tp fp fn : tfloat,
      let r := f1_score tp fp fn in
      precision r = fdiv tp (fadd tp fp)
      /\ recall r = fdiv tp (fadd tp fn)
      /\ f1 r = fdiv (fmul (fin 2) (fmul (precision r) (recall r)))
                     (fadd (precision r) (recall r)))
  /\ (forall tp fp fn : nat,
        let r := f1_score (of_count (Z.of_nat tp)) (of_count (Z.of_nat fp))
                          (of_count (Z.of_nat fn)) in
        precision r = ratio_of_counts tp (tp + fp)
        /\ recall r = ratio_of_counts tp (tp + fn))
  /\ f1_score (of_count 3) (of_count 1) (of_count 1)
     = {| precision := Fin (3 # 4); recall := Fin (3 # 4); f1 := Fin (3 # 4) |}
  /\ (forall fn : nat,
        let r := f1_score (of_count 0) (of_count 0) (of_count (Z.of_nat fn)) in
        precision r = NaN /\ f1 r = NaN)
  /\ (forall fp : nat,
        let r := f1_score (of_count 0) (of_count (Z.of_nat fp)) (of_count 0) in
        recall r = NaN /\ f1 r = NaN)
  /\ f1_score (of_count 0) (of_count 0) (of_count 5)
     = {| precision := NaN; recall := Fin 0; f1 := NaN |}.
Proof.
  split; [|split; [|split; [|split; [|split]]]].
  - intros tp fp fn. unfold f1_score. cbn [precision recall f1]. auto.
  - intros tp fp fn. unfold f1_score. cbn [precision recall f1].
    rewrite !fadd_of_count, <- !Nat2Z.inj_add.
    split; apply fdiv_counts; lia.
  - vm_compute. reflexivity.
  - intros fn. unfold f1_score. cbn [precision recall f1].
    change (fdiv (of_count 0) (fadd (of_count 0) (of_count 0))) with NaN.
    split; reflexivity.
  - intros fp. unfold f1_score. cbn [precision recall f1].
    change (fdiv (of_count 0) (fadd (of_count 0) (of_count 0))) with NaN.
    split; [reflexivity|].
    destruct (fdiv (of_count 0) (fadd _ _)); reflexivity.
  - vm_compute. reflexivity.
Qed.

(** C10. With tp = 0, fp > 0 and fn > 0, precision and recall are both the
    well-defined value 0, and the f1 value is the undefined quotient 0/0. *)
Theorem f1_score_nan_without_true_positives (fp fn : Z) :
  0 < fp -> 0 < fn ->
  f1_score (of_count 0) (of_count fp) (of_count fn)
  = {| precision := Fin 0; recall := Fin 0; f1 := NaN |}.
Proof.
  intros Hfp Hfn. unfold f1_score.
  rewrite !fadd_of_count, !fdiv_zero_count by lia.
  reflexivity.
Qed.

Lemma f1_score_nan_without_true_positives_witness :
  f1_score (of_count 0) (of_count 2) (of_count 5)
  = {| precision := Fin 0; recall := Fin 0; f1 := NaN |}.
Proof. apply (f1_score_nan_without_true_positives 2 5); lia. Defined.

End f1_score_facts.

(** ** metrics *)

Section metrics_facts.
Import torch model spec examples.

Lemma count_pairs_cons f p ps :
  count_pairs f (p :: ps) = b2z (f p) + count_pairs f ps.
Proof. unfold count_pairs. simpl. destruct (f p); simpl; lia. Qed.

Lemma class_id_cases (x : Z) : class_id x -> x = 0 \/ x = 1 \/ x = 2 \/ x = 3.
Proof. unfold class_id. lia. Qed.

Ltac rows_of cm :=
  let H := fresh in
  let Hl := fresh in
  let Hr := fresh in
  intros H; destruct H as [Hl Hr];
  do 5 (destruct cm as [|? cm]; try discriminate Hl);
  repeat match goal with
    | Hf : Forall _ (_ :: _) |- _ => apply Forall_cons in Hf; destruct Hf as [? Hf]
    end;
  repeat match goal with
    | Hlen : length ?r = 4%nat |- _ =>
        is_var r; do 5 (destruct r as [|? r]; try discriminate Hlen); clear Hlen
    end.

Lemma shape44_zeros : shape44 (zeros 4 4).
Proof. split; [reflexivity|]. repeat constructor. Qed.

(** One pass of the loop body: the entry of the pair goes up by one, and with
    it the sums that [metrics] reads off the matrix. *)
Lemma cm_incr_sums (cm : list (list Z)) (lp : Z * Z) :
  shape44 cm -> class_id lp.1 -> class_id lp.2 ->
  exists cm',
    cm_incr cm lp = Ok cm'
    /\ shape44 cm'
    /\ sum (drop 1 (diagonal cm')) = sum (drop 1 (diagonal cm)) + b2z (hit lp)
    /\ sum2 (map (drop 1) cm') = sum2 (map (drop 1) cm) + b2z (non_others lp.2)
    /\ sum2 (drop 1 cm') = sum2 (drop 1 cm) + b2z (non_others lp.1).
Proof.
  destruct lp as [l p]. simpl. revert cm. intros cm. rows_of cm.
  intros Hl Hp.
  apply class_id_cases in Hl. apply class_id_cases in Hp.
  destruct Hl as [-> | [-> | [-> | ->]]], Hp as [-> | [-> | [-> | ->]]];
    (eexists; split; [reflexivity|];
     split; [split; [reflexivity|repeat constructor]|];
     cbv -[Z.add Z.succ]; repeat split; lia).
Qed.

Lemma foldM_cm_incr_sums (ps : list (Z * Z)) : forall cm : list (list Z),
  shape44 cm -> Forall (fun lp => class_id lp.1 /\ class_id lp.2) ps ->
  exists cm',
    foldM cm_incr ps cm = Ok cm'
    /\ shape44 cm'
    /\ sum (drop 1 (diagonal cm')) = sum (drop 1 (diagonal cm)) + count_pairs hit ps
    /\ sum2 (map (drop 1) cm')
       = sum2 (map (drop 1) cm) + count_pairs (fun lp => non_others lp.2) ps
    /\ sum2 (drop 1 cm')
       = sum2 (drop 1 cm) + count_pairs (fun lp => non_others lp.1) ps.
Proof.
  induction ps as [|lp ps IH]; intros cm Hcm Hps.
  - exists cm. unfold count_pairs. simpl. repeat split; try apply Hcm; lia.
  - apply Forall_cons in Hps. destruct Hps as [[Hl Hp] Hps].
    destruct (cm_incr_sums cm lp Hcm Hl Hp) as (cm1 & E1 & S1 & D1 & C1 & R1).
    destruct (IH cm1 S1 Hps) as (cm2 & E2 & S2 & D2 & C2 & R2).
    exists cm2. cbn [foldM]. rewrite E1. cbn [mbind result_bind].
    rewrite !count_pairs_cons.
    repeat split; try apply S2; try assumption; lia.
Qed.

Lemma count_pairs_hit_le (ps : list (Z * Z)) :
  0 <= count_pairs hit ps
  /\ count_pairs hit ps <= count_pairs (fun lp => non_others lp.2) ps
  /\ count_pairs hit ps <= count_pairs (fun lp => non_others lp.1) ps.
Proof.
  induction ps as [|[l p] ps IH].
  - unfold count_pairs. simpl. lia.
  - rewrite !count_pairs_cons. unfold hit at 1 3 5. simpl.
    destruct (Z.eqb_spec l p) as [E|E]; [subst p|];
      destruct (non_others l); try destruct (non_others p); simpl; lia.
Qed.

Lemma count_pairs_zip (labels preds : list Z) :
  length labels = length preds ->
  count_pairs (fun lp => non_others lp.2) (zip labels preds) = count_non_others preds
  /\ count_pairs (fun lp => non_others lp.1) (zip labels preds) = count_non_others labels.
Proof.
  revert preds. induction labels as [|l labels IH]; intros [|p preds] Hlen;
    try discriminate Hlen.
  - split; reflexivity.
  - injection Hlen as Hlen. destruct (IH preds Hlen) as [IH1 IH2].
    change (zip (l :: labels) (p :: preds)) with ((l, p) :: zip labels preds).
    rewrite !count_pairs_cons, IH1, IH2. unfold count_non_others. simpl.
    destruct (non_others p), (non_others l); simpl; lia.
Qed.

Lemma Forall_zip_class_id (labels preds : list Z) :
  Forall class_id labels -> Forall class_id preds ->
  Forall (fun lp => class_id lp.1 /\ class_id lp.2) (zip labels preds).
Proof.
  intros Hl. revert preds. induction Hl as [|l labels Hl _ IH]; intros preds Hp.
  - constructor.
  - destruct Hp as [|p preds Hp Hps]; [constructor|].
    constructor; [split; assumption|]. by apply IH.
Qed.

(** The counts of [metrics], for a batch of class ids. *)
Lemma metrics_counts {L : Type} (loss : L) (logits : list (list Q))
    (labels preds : list Z) :
  mapM argmax logits = Ok preds ->
  length labels = length preds ->
  Forall class_id labels -> Forall class_id preds ->
  exists s,
    metrics loss logits labels = Ok s
    /\ tp s = count_pairs hit (zip labels preds)
    /\ tp s + fp s = count_non_others preds
    /\ tp s + fn s = count_non_others labels.
Proof.
  intros Hpreds Hlen Hl Hp. unfold metrics. rewrite Hpreds. cbn [mbind result_bind].
  unfold eq_broadcast. rewrite Hlen, Nat.eqb_refl. cbn [mbind result_bind].
  destruct (foldM_cm_incr_sums (zip labels preds) (zeros 4 4) shape44_zeros
              (Forall_zip_class_id _ _ Hl Hp)) as (cm & E & _ & D & C & R).
  unfold confusion. rewrite E. cbn [mbind result_bind].
  eexists. split; [reflexivity|]. cbn [tp fp fn].
  destruct (count_pairs_zip labels preds Hlen) as [Z1 Z2].
  rewrite D, C, R, Z1, Z2. cbn. repeat split; lia.
Qed.

(** C9. For labels and argmax predictions that are class ids, the counts of
    [metrics] satisfy tp + fp = the number of predictions of a class other
    than "others" and tp + fn = the number of labels of such a class; so
    tp <= tp + fp, tp <= tp + fn, and the three counts are not negative. *)
Theorem metrics_counts_partition {L : Type} (loss : L) (logits : list (list Q))
    (labels preds : list Z) :
  mapM argmax logits = Ok preds ->
  length labels = length preds ->
  Forall class_id labels -> Forall class_id preds ->
  exists s,
    metrics loss logits labels = Ok s
    /\ tp s + fp s = count_non_others preds
    /\ tp s + fn s = count_non_others labels
    /\ tp s <= tp s + fp s
    /\ tp s <= tp s + fn s
    /\ 0 <= tp s /\ 0 <= fp s /\ 0 <= fn s.
Proof.
  intros Hpreds Hlen Hl Hp.
  destruct (metrics_counts loss logits labels preds Hpreds Hlen Hl Hp)
    as (s & E & T & P & N).
  destruct (count_pairs_zip labels preds Hlen) as [Z1 Z2].
  destruct (count_pairs_hit_le (zip labels preds)) as (H0 & H1 & H2).
  exists s. rewrite Z1 in H1. rewrite Z2 in H2.
  repeat split; try assumption; lia.
Qed.

Lemma metrics_counts_partition_witness :
  exists s,
    metrics tt example_logits [1; 2; 2; 0] = Ok s
    /\ tp s + fp s = count_non_others [1; 1; 2; 0]
    /\ tp s + fn s = count_non_others [1; 2; 2; 0]
    /\ tp s <= tp s + fp s
    /\ tp s <= tp s + fn s
    /\ 0 <= tp s /\ 0 <= fp s /\ 0 <= fn s.
Proof.
  apply (metrics_counts_partition tt example_logits [1; 2; 2; 0] [1; 1; 2; 0]).
  - reflexivity.
  - reflexivity.
  - repeat constructor; unfold class_id; lia.
  - repeat constructor; unfold class_id; lia.
Defined.

(** C1, as the code has it. The counts are read off the 4x4 confusion matrix
    over the three classes other than "others"; for the predictions
    [1,1,2,0] and the labels [1,2,2,0] the matrix has the two diagonal
    entries (1,1) and (2,2), so tp = 2, fp = 1 and fn = 1. *)
Theorem metrics_example {L : Type} (loss : L) (logits : list (list Q)) :
  mapM argmax logits = Ok [1; 1; 2; 0] ->
  exists cm s,
    confusion [1; 2; 2; 0] [1; 1; 2; 0] = Ok cm
    /\ cm = [[1; 0; 0; 0]; [0; 1; 0; 0]; [0; 1; 1; 0]; [0; 0; 0; 0]]
    /\ metrics loss logits [1; 2; 2; 0] = Ok s
    /\ tp s = sum (drop 1 (diagonal cm))
    /\ fp s = sum2 (map (drop 1) cm) - tp s
    /\ fn s = sum2 (drop 1 cm) - tp s
    /\ tp s = 2 /\ fp s = 1 /\ fn s = 1.
Proof.
  intros Hpreds. eexists. eexists.
  split; [reflexivity|]. split; [reflexivity|].
  unfold metrics. rewrite Hpreds. cbn [mbind result_bind].
  split; [reflexivity|]. cbn [tp fp fn]. repeat split; reflexivity.
Qed.

Lemma metrics_example_witness :
  exists cm s,
    confusion [1; 2; 2; 0] [1; 1; 2; 0] = Ok cm
    /\ cm = [[1; 0; 0; 0]; [0; 1; 0; 0]; [0; 1; 1; 0]; [0; 0; 0; 0]]
    /\ metrics tt example_logits [1; 2; 2; 0] = Ok s
    /\ tp s = sum (drop 1 (diagonal cm))
    /\ fp s = sum2 (map (drop 1) cm) - tp s
    /\ fn s = sum2 (drop 1 cm) - tp s
    /\ tp s = 2 /\ fp s = 1 /\ fn s = 1.
Proof. apply (metrics_example tt example_logits). reflexivity. Defined.

(** C1, with tp = 1 as the specification has it, fails: on a batch with the predictions
    [1,1,2,0] and the labels [1,2,2,0], [metrics] does not return tp = 1. *)
Lemma metrics_example_tp_is_not_one :
  mapM argmax example_logits = Ok [1; 1; 2; 0]
  /\ ~ (exists s, metrics tt example_logits [1; 2; 2; 0] = Ok s
                  /\ tp s = 1 /\ fp s = 1 /\ fn s = 1).
Proof.
  split; [reflexivity|].
  intros (s & E & T & _). vm_compute in E. injection E as <-.
  discriminate T.
Qed.

End metrics_facts.

(** ** layerwise_lr *)

Section layerwise_lr_facts.
Import model.

Lemma layerwise_lr_length (num_layers : nat) (lr decay : Q) :
  length (layerwise_lr num_layers lr decay) = S num_layers.
Proof.
  unfold layerwise_lr. rewrite length_app, length_map, length_seq. reflexivity.
Qed.

Lemma layerwise_lr_embeddings (num_layers : nat) (lr decay : Q) :
  layerwise_lr num_layers lr decay !! 0%nat
  = Some {| params := bert_embeddings;
            lr := (lr * decay ^ Z.of_nat num_layers)%Q |}.
Proof. reflexivity. Qed.

Lemma layerwise_lr_layer (num_layers : nat) (lr decay : Q) (l : nat) :
  (l < num_layers)%nat ->
  layerwise_lr num_layers lr decay !! S l
  = Some {| params := bert_transformer_layer l;
            lr := (lr * decay ^ (Z.of_nat num_layers - Z.of_nat l + 1))%Q |}.
Proof.
  intros Hl. unfold layerwise_lr.
  change (([?g] ++ map ?f ?xs) !! S l) with ((f <$> xs) !! l).
  rewrite list_lookup_fmap, lookup_seq_lt by done. reflexivity.
Qed.

Lemma decay_power_step (decay : Q) (k : Z) :
  (0 < decay)%Q -> (decay < 1)%Q -> 0 <= k ->
  (decay ^ (k + 1) < decay ^ k)%Q.
Proof.
  intros Hpos Hlt Hk.
  assert (Hne : ~ (decay == 0)%Q).
  { intros E. rewrite E in Hpos. by apply Qlt_irrefl in Hpos. }
  rewrite Qpower_plus by assumption.
  rewrite <- (Qmult_1_r (decay ^ k)) at 2.
  apply Qmult_lt_l; [by apply Qpower_0_lt|].
  exact Hlt.
Qed.

Lemma decay_power_lt (decay : Q) (a b : Z) :
  (0 < decay)%Q -> (decay < 1)%Q -> 0 <= a < b ->
  (decay ^ b < decay ^ a)%Q.
Proof.
  intros Hpos Hlt [Ha Hab].
  replace b with (a + 1 + (b - a - 1)) by lia.
  assert (Hj : 0 <= b - a - 1) by lia.
  generalize dependent (b - a - 1). intros j Hj.
  pattern j. apply natlike_ind; [| |exact Hj].
  - rewrite Z.add_0_r. by apply decay_power_step.
  - intros x Hx IH.
    replace (a + 1 + Z.succ x) with (a + 1 + x + 1) by lia.
    eapply Qlt_trans; [|exact IH].
    apply decay_power_step; [assumption..|lia].
Qed.

(** Among the transformer layers the rate grows with the depth. *)
Lemma layerwise_lr_layers_increasing (num_layers : nat) (lr decay : Q)
    (l l' : nat) (g g' : param_group) :
  (0 < lr)%Q -> (0 < decay)%Q -> (decay < 1)%Q ->
  (l < l')%nat -> (l' < num_layers)%nat ->
  layerwise_lr num_layers lr decay !! S l = Some g ->
  layerwise_lr num_layers lr decay !! S l' = Some g' ->
  (model.lr g < model.lr g')%Q.
Proof.
  intros Hlr Hpos Hlt Hll Hl' Hg Hg'.
  rewrite layerwise_lr_layer in Hg by lia.
  rewrite layerwise_lr_layer in Hg' by lia.
  injection Hg as <-. injection Hg' as <-. cbn [model.lr].
  apply Qmult_lt_l; [assumption|].
  apply decay_power_lt; [assumption..|lia].
Qed.

(** The embedding group is not the slowest: the first transformer layer
    gets a smaller rate, whatever the positive rate and the decay. *)
Lemma layerwise_lr_first_layer_below_embeddings (num_layers : nat) (lr decay : Q)
    (g0 g1 : param_group) :
  (0 < lr)%Q -> (0 < decay)%Q -> (decay < 1)%Q ->
  layerwise_lr num_layers lr decay !! 0%nat = Some g0 ->
  layerwise_lr num_layers lr decay !! 1%nat = Some g1 ->
  params g0 = bert_embeddings /\ params g1 = bert_transformer_layer 0
  /\ (model.lr g1 < model.lr g0)%Q.
Proof.
  intros Hlr Hpos Hlt Hg0 Hg1.
  assert (Hn : (0 < num_layers)%nat).
  { destruct num_layers; [discriminate Hg1|lia]. }
  rewrite layerwise_lr_embeddings in Hg0.
  rewrite layerwise_lr_layer in Hg1 by lia.
  injection Hg0 as <-. injection Hg1 as <-. cbn [model.lr params].
  split; [reflexivity|]. split; [reflexivity|].
  apply Qmult_lt_l; [assumption|].
  replace (Z.of_nat num_layers - Z.of_nat 0 + 1) with (Z.of_nat num_layers + 1) by lia.
  apply decay_power_step; [assumption..|lia].
Qed.

(** C2, the code at the six layers of DistilBert with lr = 1 and
    decay = 1/2: seven groups with the exponents 6, 7, 6, 5, 4, 3, 2, so
    the embedding group (1/64) is faster than the first layer (1/128) and
    as fast as the second. *)
Theorem layerwise_lr_distilbert_half :
  map (fun g => (params g, Qred (model.lr g))) (layerwise_lr 6 1 (1 # 2))
  = [ (bert_embeddings, 1 # 64);
      (bert_transformer_layer 0, 1 # 128);
      (bert_transformer_layer 1, 1 # 64);
      (bert_transformer_layer 2, 1 # 32);
      (bert_transformer_layer 3, 1 # 16);
      (bert_transformer_layer 4, 1 # 8);
      (bert_transformer_layer 5, 1 # 4) ]%Q
  /\ length (layerwise_lr 6 1 (1 # 2)) = 7%nat
  /\ exists g0 g1,
       layerwise_lr 6 1 (1 # 2) !! 0%nat = Some g0
       /\ layerwise_lr 6 1 (1 # 2) !! 1%nat = Some g1
       /\ params g0 = bert_embeddings
       /\ params g1 = bert_transformer_layer 0
       /\ (model.lr g1 < model.lr g0)%Q.
Proof.
  split; [vm_compute; reflexivity|]. split; [reflexivity|].
  eexists. eexists. split; [reflexivity|]. split; [reflexivity|].
  split; [reflexivity|]. split; [reflexivity|]. vm_compute. reflexivity.
Qed.

End layerwise_lr_facts.

(** ** The context classifier *)

Section context_classifier_facts.
Import torch model model.context_classifier_model spec.

Context {E V : Type}.
Variable projection : E -> V.
Variable position_embeds : nat -> V.
Variable norm : V -> V.
Variable drop : nat -> nat -> V -> V.
Variable add : V -> V -> V.
Variable context_transformer_logits : list (list V) -> list (list Q).
Variable cross_entropy : nat -> list (list Q) -> list Z -> tfloat.
Variable bin_loss_fct : list Q -> list tfloat -> tfloat.

(** The classifier of [EmotionModel]: [others_label] is
    [emo_dict["others"]], that is 0. *)
Local Abbreviation others := 0%Z (only parsing).
Local Abbreviation embedded_turn_of :=
  (embedded_turn projection position_embeds norm drop add).
Local Abbreviation inputs_of :=
  (inputs_embeds_of projection position_embeds norm drop add).
Local Abbreviation forward_of :=
  (forward projection position_embeds norm drop add
     context_transformer_logits cross_entropy others bin_loss_fct).

Lemma position_ids_of_three (sentence_embeds : list (list E)) :
  Forall (fun turns => length turns = 3%nat) sentence_embeds ->
  position_ids_of sentence_embeds = Ok (map (fun _ => seq 0 3) sentence_embeds).
Proof.
  unfold position_ids_of.
  induction 1 as [|turns rest Hlen _ IH]; [reflexivity|].
  cbn [mapM map]. rewrite Hlen, IH. reflexivity.
Qed.

(** The sequence of one batch item, turn by turn, in the order the head
    reads it. *)
Lemma inputs_embeds_of_three (sentence_embeds : list (list E)) :
  Forall (fun turns => length turns = 3%nat) sentence_embeds ->
  inputs_of sentence_embeds
  = Ok (imap (fun b turns => reverse (imap (embedded_turn_of b) turns)) sentence_embeds).
Proof.
  intros H3. unfold inputs_embeds_of. rewrite (position_ids_of_three _ H3).
  cbn [mbind result_bind]. f_equal.
  apply list_eq. intros b.
  change (map ?f ?xs) with (f <$> xs).
  rewrite list_lookup_fmap, !list_lookup_imap, lookup_zip_with, !list_lookup_fmap.
  destruct (sentence_embeds !! b) as [turns|] eqn:Hb; [|reflexivity].
  cbn [fmap option_fmap option_map mbind option_bind].
  assert (Hlen : length turns = 3%nat).
  { rewrite Forall_lookup in H3. exact (H3 b turns Hb). }
  destruct turns as [|e0 [|e1 [|e2 [|? ?]]]]; try discriminate Hlen.
  reflexivity.
Qed.

Lemma column_others (logits : list (list Q)) :
  Forall (fun row => length row = 4%nat) logits ->
  column logits others = Ok (map (fun row => nth 0 row 0%Q) logits).
Proof.
  unfold column.
  induction 1 as [|row rest Hlen _ IH]; [reflexivity|].
  cbn [mapM map]. rewrite IH, Hlen.
  destruct row as [|x row]; [discriminate Hlen|]. reflexivity.
Qed.

(** C4. The positional embedding of index i is added to the turn at the
    original position i, and the head reads the three turns in reverse
    order: the third turn is at position 0 of its input. *)
Theorem forward_reverses_turns (sentence_embeds : list (list E)) (b : nat)
    (e0 e1 e2 : E) :
  Forall (fun turns => length turns = 3%nat) sentence_embeds ->
  sentence_embeds !! b = Some [e0; e1; e2] ->
  exists inputs_embeds,
    inputs_of sentence_embeds = Ok inputs_embeds
    /\ inputs_embeds !! b
       = Some [ drop b 2 (norm (add (projection e2) (position_embeds 2)));
                drop b 1 (norm (add (projection e1) (position_embeds 1)));
                drop b 0 (norm (add (projection e0) (position_embeds 0))) ]
    /\ forward_of sentence_embeds None
       = Ok (logits_only (context_transformer_logits inputs_embeds))
    /\ forall labels,
         forward_of sentence_embeds (Some labels)
         = (bl ← bin_loss others bin_loss_fct
                   (context_transformer_logits inputs_embeds) labels;
            Ok (loss_and_logits
                  (fadd (cross_entropy 4 (context_transformer_logits inputs_embeds)
                                       labels) bl)
                  (context_transformer_logits inputs_embeds))).
Proof.
  intros H3 Hb. eexists. split; [by apply inputs_embeds_of_three|].
  split.
  { rewrite list_lookup_imap, Hb. reflexivity. }
  unfold forward. rewrite (inputs_embeds_of_three _ H3).
  cbn [mbind result_bind]. split; [reflexivity|].
  intros labels. reflexivity.
Qed.

(** C3. With labels that the head takes, one class id for each item of the
    batch, [forward] returns the pair of the total loss and the logits, the
    total loss being the plain sum of the head's 4-class cross entropy and
    of the binary cross entropy of the logit at the index of "others"
    against the target that is 1 on the labels equal to "others" and 0 on
    the others; without labels, it returns the logits alone. *)
Theorem forward_loss_and_logits (sentence_embeds : list (list E)) :
  Forall (fun turns => length turns = 3%nat) sentence_embeds ->
  (forall inputs_embeds,
      Forall (fun row => length row = 4%nat)
             (context_transformer_logits inputs_embeds)) ->
  exists inputs_embeds,
    inputs_of sentence_embeds = Ok inputs_embeds
    /\ let logits := context_transformer_logits inputs_embeds in
       forward_of sentence_embeds None = Ok (logits_only logits)
       /\ forall labels : list Z,
            valid_labels (length sentence_embeds) labels ->
            forward_of sentence_embeds (Some labels)
            = Ok (loss_and_logits
                    (fadd (cross_entropy 4 logits labels)
                          (bin_loss_fct
                             (map (fun row => nth 0 row 0%Q) logits)
                             (map (fun l => if decide (l = others)
                                            then Fin 1 else Fin 0) labels)))
                    logits).
Proof.
  intros H3 H4. eexists. split; [by apply inputs_embeds_of_three|].
  cbv zeta. unfold forward. rewrite (inputs_embeds_of_three _ H3).
  cbn [mbind result_bind]. split; [reflexivity|].
  intros labels _. cbn [context_transformer].
  unfold bin_loss. rewrite (column_others _ (H4 _)). cbn [mbind result_bind].
  unfold bin_labels_of, num_labels. do 4 f_equal.
  apply map_ext. intros l.
  destruct (Z.eqb_spec l 0), (decide (l = 0)); done.
Qed.

End context_classifier_facts.

(** ** The data pipeline *)

Section transform_data_facts.
Import dataloader spec.

Variable encode : string -> nat -> list Z.

Lemma length_pad (max_seq_len : nat) (ids : list Z) :
  (length ids <= max_seq_len)%nat -> length (pad max_seq_len ids) = max_seq_len.
Proof. intros H. unfold pad. rewrite length_app, length_replicate. lia. Qed.

Lemma torch_tensor_rectangular (rows : list (list (list Z))) (n : nat) :
  Forall (Forall (fun ids => length ids = n)) rows ->
  torch_tensor rows = Ok rows.
Proof.
  intros H. unfold torch_tensor.
  assert (Hc : Forall (fun ids => length ids = n) (concat rows)).
  { induction H as [|row rest Hrow _ IH]; [constructor|].
    cbn [concat]. apply Forall_app. by split. }
  destruct (concat rows) as [|ids0 rest] eqn:E; [reflexivity|].
  assert (H0 : length ids0 = n) by (by inversion Hc).
  rewrite (proj2 (forallb_forall _ _)); [reflexivity|].
  intros ids Hin. apply Nat.eqb_eq. rewrite H0.
  rewrite Forall_forall in Hc. apply Hc. by apply list_elem_of_In.
Qed.

Lemma truncated_cons (r : conversation) (df : list conversation) (max_seq_len : nat) :
  truncated encode (r :: df) max_seq_len ->
  Forall (fun turn => (length (encode turn max_seq_len) <= max_seq_len)%nat)
         [turn1 r; turn2 r; turn3 r]
  /\ truncated encode df max_seq_len.
Proof.
  unfold truncated, turns_of. cbn [map concat]. intros H.
  by apply Forall_app in H.
Qed.

Lemma padded_rows_rectangular (df : list conversation) (max_seq_len : nat) :
  truncated encode df max_seq_len ->
  Forall (Forall (fun ids => length ids = max_seq_len))
         (padded_rows encode df max_seq_len).
Proof.
  induction df as [|r df IH]; intros H; [constructor|].
  apply truncated_cons in H. destruct H as [Hr Hdf].
  cbn [padded_rows map]. constructor; [|by apply IH].
  inversion Hr as [|? ? H1 Hr1]; subst. inversion Hr1 as [|? ? H2 Hr2]; subst.
  inversion Hr2 as [|? ? H3 _]; subst.
  repeat constructor; by apply length_pad.
Qed.

Lemma transform_data_ok (df : list conversation) (max_seq_len : nat) :
  truncated encode df max_seq_len ->
  transform_data encode df max_seq_len
  = Ok (padded_rows encode df max_seq_len,
        map (map (map attention_of)) (padded_rows encode df max_seq_len)).
Proof.
  intros Htr. unfold transform_data.
  assert (Hrows :
    map (fun idx => map (pad max_seq_len) idx)
        (map (fun r => map (tokenize_fct encode max_seq_len)
                           [turn1 r; turn2 r; turn3 r]) df)
    = padded_rows encode df max_seq_len).
  { unfold padded_rows. rewrite map_map. reflexivity. }
  rewrite Hrows, (torch_tensor_rectangular _ max_seq_len); [reflexivity|].
  by apply padded_rows_rectangular.
Qed.

Lemma shape_of_padded_rows (df : list conversation) (max_seq_len : nat) :
  truncated encode df max_seq_len ->
  shape_of (padded_rows encode df max_seq_len)
  = match df with
    | [] => [0%nat]
    | _ :: _ => [length df; 3%nat; max_seq_len]
    end.
Proof.
  destruct df as [|r df]; [reflexivity|]. intros H.
  apply truncated_cons in H. destruct H as [Hr _].
  inversion Hr as [|? ? H1 _]; subst.
  cbn [padded_rows map shape_of length].
  rewrite length_pad by exact H1. by rewrite length_map.
Qed.

Lemma shape_of_map (f : Z -> Z) (t : list (list (list Z))) :
  shape_of (map (map (map f)) t) = shape_of t.
Proof.
  destruct t as [|[|ids row] t]; cbn [map shape_of length];
    by rewrite ?length_map.
Qed.

Lemma entry3_map (f : Z -> Z) (t : list (list (list Z))) (i j k : nat) :
  entry3 (map (map (map f)) t) i j k = f <$> entry3 t i j k.
Proof.
  unfold entry3. change (map ?g ?xs) with (g <$> xs).
  rewrite list_lookup_fmap. destruct (t !! i) as [row|]; [|reflexivity].
  cbn [fmap option_fmap option_map mbind option_bind].
  change (map ?g ?xs) with (g <$> xs).
  rewrite list_lookup_fmap. destruct (row !! j) as [ids|]; [|reflexivity].
  cbn [fmap option_fmap option_map mbind option_bind].
  change (map ?g ?xs) with (g <$> xs).
  by rewrite list_lookup_fmap.
Qed.

(** C5. For every data frame of N conversations and every [max_seq_len]
    that the tokenizer keeps to on its turns, [transform_data] returns an
    id tensor and a mask tensor of the same shape, which is
    (N, 3, max_seq_len) when the frame has a conversation and (0,) when it
    has none; the ids of a turn are followed by the pad value 0 up to
    [max_seq_len]; and the mask is 0 exactly where the id is 0, and 1
    everywhere else. *)
Theorem transform_data_shape_and_mask (df : list conversation) (max_seq_len : nat) :
  truncated encode df max_seq_len ->
  exists padded attention_mask,
    transform_data encode df max_seq_len = Ok (padded, attention_mask)
    /\ shape_of padded
       = match df with
         | [] => [0%nat]
         | _ :: _ => [length df; 3%nat; max_seq_len]
         end
    /\ shape_of attention_mask = shape_of padded
    /\ (forall (i : nat) (r : conversation),
          df !! i = Some r ->
          padded !! i
          = Some (map (fun turn =>
                         encode turn max_seq_len
                         ++ replicate (max_seq_len - length (encode turn max_seq_len)) 0)
                      [turn1 r; turn2 r; turn3 r]))
    /\ (forall i j k : nat,
          (entry3 attention_mask i j k = Some 0 <-> entry3 padded i j k = Some 0)
          /\ (entry3 attention_mask i j k = Some 1
              <-> exists x, entry3 padded i j k = Some x /\ x <> 0)
          /\ (is_Some (entry3 attention_mask i j k)
              <-> is_Some (entry3 padded i j k))).
Proof.
  intros Htr.
  exists (padded_rows encode df max_seq_len),
         (map (map (map attention_of)) (padded_rows encode df max_seq_len)).
  split; [by apply transform_data_ok|].
  split; [by apply shape_of_padded_rows|].
  split; [apply shape_of_map|].
  split.
  - intros i r Hi. unfold padded_rows. change (map ?g ?xs) with (g <$> xs).
    rewrite list_lookup_fmap, Hi. reflexivity.
  - intros i j k. rewrite entry3_map.
    destruct (entry3 (padded_rows encode df max_seq_len) i j k) as [x|];
      cbn [fmap option_fmap option_map]; unfold attention_of.
    + destruct (Z.eqb_spec x 0) as [->|Hx]; cbn [negb].
      * split; [done|]. split; [|split; intros _; by eexists].
        split; [discriminate|]. intros (y & [= <-] & Hy). done.
      * split; [split; [discriminate|intros [= ->]; done]|].
        split; [|split; intros _; by eexists].
        split; [|done]. intros _. exists x. done.
    + split; [done|]. split; [|split; intros [? ?]; discriminate].
      split; [discriminate|]. intros (y & Hy & _). discriminate.
Qed.

End transform_data_facts.

Section get_labels_facts.
Import dataloader spec.

Lemma lookup_label_Some (emo_dict : gmap string Z) (l : string) (v : Z) :
  emo_dict !! l = Some v -> lookup_label emo_dict l = Ok v.
Proof. intros H. unfold lookup_label. by rewrite H. Qed.

Lemma lookup_label_None (emo_dict : gmap string Z) (l : string) :
  emo_dict !! l = None -> lookup_label emo_dict l = Raise (KeyError l).
Proof. intros H. unfold lookup_label. by rewrite H. Qed.

Lemma get_labels_known (emo_dict : gmap string Z) (df : list conversation) :
  Forall (known emo_dict) df ->
  exists ls,
    get_labels df emo_dict = Ok ls
    /\ Forall2 (fun r v => emo_dict !! label r = Some v) df ls.
Proof.
  unfold get_labels.
  induction 1 as [|r rest [v Hv] _ (ls & IH & IH2)].
  - exists []. split; [reflexivity|constructor].
  - exists (v :: ls). cbn [mapM]. rewrite (lookup_label_Some _ _ _ Hv), IH.
    split; [reflexivity|]. by constructor.
Qed.

Lemma get_labels_unknown (emo_dict : gmap string Z)
    (before after : list conversation) (r : conversation) :
  Forall (known emo_dict) before ->
  emo_dict !! label r = None ->
  get_labels (before ++ r :: after) emo_dict = Raise (KeyError (label r)).
Proof.
  unfold get_labels.
  induction 1 as [|r0 rest [v Hv] _ IH]; intros Hr.
  - cbn [app mapM]. rewrite (lookup_label_None _ _ Hr). reflexivity.
  - cbn [app mapM]. rewrite (lookup_label_Some _ _ _ Hv).
    cbn [mbind result_bind]. rewrite (IH Hr). reflexivity.
Qed.

Lemma emo_dict_lookup (k : string) (v : Z) :
  EmotionModel.emo_dict !! k = Some v <->
  (k = "others" /\ v = 0) \/ (k = "sad" /\ v = 1)
  \/ (k = "angry" /\ v = 2) \/ (k = "happy" /\ v = 3).
Proof.
  unfold EmotionModel.emo_dict. split.
  - intros H.
    do 3 (apply lookup_insert_Some in H;
          destruct H as [[<- <-]|[_ H']];
          [first [left; done | right; left; done | right; right; left; done]|];
          rename H' into H).
    apply lookup_singleton_Some in H. destruct H as [<- <-]. do 3 right. done.
  - intros [[-> ->]|[[-> ->]|[[-> ->]|[-> ->]]]]; by vm_compute.
Qed.

(** C7. The emotion dictionary maps "others", "sad", "angry" and "happy" to
    the distinct integers 0, 1, 2 and 3, one to one; and on a data frame
    with a label that is no key of the dictionary, [get_labels] raises a
    [KeyError] for the first such label, and substitutes no default. *)
Theorem get_labels_bijection_and_key_error :
  (EmotionModel.emo_dict !! "others" = Some 0
   /\ EmotionModel.emo_dict !! "sad" = Some 1
   /\ EmotionModel.emo_dict !! "angry" = Some 2
   /\ EmotionModel.emo_dict !! "happy" = Some 3)
  /\ (forall (k1 k2 : string) (v : Z),
        EmotionModel.emo_dict !! k1 = Some v ->
        EmotionModel.emo_dict !! k2 = Some v -> k1 = k2)
  /\ (forall v : Z,
        (exists k : string, EmotionModel.emo_dict !! k = Some v) <-> 0 <= v <= 3)
  /\ (forall (emo_dict : gmap string Z) (df : list conversation),
        Forall (known emo_dict) df ->
        exists ls, get_labels df emo_dict = Ok ls
                   /\ Forall2 (fun r v => emo_dict !! label r = Some v) df ls)
  /\ (forall (emo_dict : gmap string Z) (before after : list conversation)
             (r : conversation),
        Forall (known emo_dict) before ->
        emo_dict !! label r = None ->
        get_labels (before ++ r :: after) emo_dict = Raise (KeyError (label r))).
Proof.
  split; [repeat split; by vm_compute|].
  split.
  { intros k1 k2 v H1 H2. apply emo_dict_lookup in H1, H2.
    destruct H1 as [[-> ->]|[[-> ->]|[[-> ->]|[-> ->]]]];
      destruct H2 as [[-> ?]|[[-> ?]|[[-> ?]|[-> ?]]]]; (reflexivity || lia). }
  split.
  { intros v. split.
    - intros [k Hk]. apply emo_dict_lookup in Hk.
      destruct Hk as [[_ ->]|[[_ ->]|[[_ ->]|[_ ->]]]]; lia.
    - intros Hv.
      assert (Hc : v = 0 \/ v = 1 \/ v = 2 \/ v = 3) by lia.
      destruct Hc as [-> | [-> | [-> | ->]]];
        [exists "others"|exists "sad"|exists "angry"|exists "happy"]; by vm_compute. }
  split; [apply get_labels_known|apply get_labels_unknown].
Qed.

End get_labels_facts.

(** ** The frozen phase of the training model *)

Section frozen_phase_facts.
Import EmotionModel.

Context {Ids Mask Emb Out : Type}.
Variable sentence_embeds_model : Ids -> Mask -> Emb.
Variable context_classifier_model : Emb -> option (list Z) -> Out.
Variable frozen_epochs : Z.

Local Abbreviation forward_of :=
  (forward sentence_embeds_model context_classifier_model frozen_epochs).

Lemma set_grad_enabled_restore (s : state) (b : bool) :
  set_grad_enabled (grad_enabled s) (set_grad_enabled b s) = s.
Proof. destruct s. reflexivity. Qed.

(** [forward] leaves the state as it found it: the gradient mode that
    [no_grad] switched off is back on exit. *)
Lemma forward_state (input_ids : Ids) (attention_mask : Mask)
    (labels : option (list Z)) (s : state) :
  (forward_of input_ids attention_mask labels s).2 = s.
Proof.
  unfold forward. destruct (current_epoch s <? frozen_epochs); cbn.
  - apply set_grad_enabled_restore.
  - reflexivity.
Qed.

(** What [forward] records of the encoder, in any gradient mode: nothing
    in the frozen phase, and what the mode of the caller says after it. *)
Lemma forward_recorded (input_ids : Ids) (attention_mask : Mask)
    (labels : option (list Z)) (s : state) :
  recorded (forward_of input_ids attention_mask labels s).1
  = if frozen frozen_epochs s then false else grad_enabled s.
Proof.
  unfold forward, frozen. destruct (current_epoch s <? frozen_epochs); reflexivity.
Qed.

(** The test of the frozen phase looks at the epoch alone: a later epoch of
    an unfrozen one is unfrozen. *)
Lemma frozen_later (s s' : state) :
  current_epoch s <= current_epoch s' ->
  frozen frozen_epochs s = false -> frozen frozen_epochs s' = false.
Proof.
  unfold frozen. intros He Hs. apply Z.ltb_ge. apply Z.ltb_ge in Hs. lia.
Qed.

(** C8. At every call of [forward]: while the epoch is below
    [frozen_epochs] the encoder runs with gradient recording disabled,
    whatever the mode of the caller; from [frozen_epochs] on it runs in the
    mode of the caller, so its gradients are recorded exactly when the
    caller records, as a training step does and a validation step under
    no-grad does not; [forward] never switches the recording on and leaves
    the mode as it found it; and as long as the epoch does not go down, a
    call that was not frozen is followed by calls that are not frozen. *)
Theorem forward_frozen_phase (input_ids : Ids) (attention_mask : Mask)
    (labels : option (list Z)) (s : state) :
  (current_epoch s < frozen_epochs ->
     recorded (forward sentence_embeds_model context_classifier_model frozen_epochs
                 input_ids attention_mask labels s).1 = false)
  /\ (frozen_epochs <= current_epoch s ->
        recorded (forward sentence_embeds_model context_classifier_model
                    frozen_epochs input_ids attention_mask labels s).1
        = grad_enabled s)
  /\ (forward sentence_embeds_model context_classifier_model frozen_epochs
         input_ids attention_mask labels s).2 = s
  /\ (forall s' : state,
        current_epoch s <= current_epoch s' ->
        frozen frozen_epochs s = false ->
        frozen frozen_epochs s' = false
        /\ forall (input_ids' : Ids) (attention_mask' : Mask)
                  (labels' : option (list Z)),
             recorded (forward sentence_embeds_model context_classifier_model
                         frozen_epochs input_ids' attention_mask' labels' s').1
             = grad_enabled s').
Proof.
  split; [|split; [|split]].
  - intros Hlt. rewrite forward_recorded. unfold frozen.
    destruct (Z.ltb_spec (current_epoch s) frozen_epochs); [reflexivity|lia].
  - intros Hge. rewrite forward_recorded. unfold frozen.
    destruct (Z.ltb_spec (current_epoch s) frozen_epochs); [lia|reflexivity].
  - apply forward_state.
  - intros s' He Hs.
    assert (Hs' := frozen_later s s' He Hs). split; [exact Hs'|].
    intros input_ids' attention_mask' labels'.
    by rewrite forward_recorded, Hs'.
Qed.

(** C8 as the specification has it, with the gradients recorded from
    [frozen_epochs] on, fails at a validation step: at epoch 2 with
    [frozen_epochs = 2] the phase is not frozen, and the encoder's pass is
    not recorded. *)
Lemma forward_unrecorded_at_validation :
  2 <= current_epoch examples.validation_at_epoch_two
  /\ frozen 2 examples.validation_at_epoch_two = false
  /\ recorded (forward (fun _ _ : unit => tt) (fun _ _ => tt) 2 tt tt None
                       examples.validation_at_epoch_two).1 = false.
Proof. split; [reflexivity|]. split; reflexivity. Qed.

End frozen_phase_facts.

(** ** The properties on small inputs *)

Section instances.
Import torch dataloader model model.context_classifier_model spec examples.

Lemma toy_encode_max_length (turn : string) (n : nat) :
  (length (toy_encode turn n) <= n)%nat.
Proof. unfold toy_encode. rewrite length_take. lia. Defined.

Lemma toy_head_logits_width (inputs_embeds : list (list Z)) :
  Forall (fun row => length row = 4%nat) (toy_head_logits inputs_embeds).
Proof.
  unfold toy_head_logits.
  induction inputs_embeds as [|x rest IH]; constructor; [reflexivity|exact IH].
Defined.

Lemma forward_loss_and_logits_witness :
  exists inputs_embeds,
    inputs_embeds_of (fun e : Z => e) toy_position_embeds (fun v => v) toy_drop Z.add
      example_embeds = Ok inputs_embeds
    /\ let logits := toy_head_logits inputs_embeds in
       forward (fun e : Z => e) toy_position_embeds (fun v => v) toy_drop Z.add
         toy_head_logits toy_cross_entropy 0 toy_bin_loss_fct example_embeds None
       = Ok (logits_only logits)
       /\ forall labels : list Z,
            valid_labels (length example_embeds) labels ->
            forward (fun e : Z => e) toy_position_embeds (fun v => v) toy_drop Z.add
              toy_head_logits toy_cross_entropy 0 toy_bin_loss_fct example_embeds
              (Some labels)
            = Ok (loss_and_logits
                    (fadd (toy_cross_entropy 4 logits labels)
                          (toy_bin_loss_fct
                             (map (fun row => nth 0 row 0%Q) logits)
                             (map (fun l => if decide (l = 0)
                                            then Fin 1 else Fin 0) labels)))
                    logits).
Proof.
  apply (forward_loss_and_logits (fun e : Z => e) toy_position_embeds (fun v => v)
           toy_drop Z.add toy_head_logits toy_cross_entropy toy_bin_loss_fct
           example_embeds).
  - repeat constructor.
  - exact toy_head_logits_width.
Defined.

Lemma forward_reverses_turns_witness :
  exists inputs_embeds,
    inputs_embeds_of (fun e : Z => e) toy_position_embeds (fun v => v) toy_drop Z.add
      example_embeds = Ok inputs_embeds
    /\ inputs_embeds !! 0%nat
       = Some [ toy_drop 0 2 (30 + toy_position_embeds 2);
                toy_drop 0 1 (20 + toy_position_embeds 1);
                toy_drop 0 0 (10 + toy_position_embeds 0) ]
    /\ forward (fun e : Z => e) toy_position_embeds (fun v => v) toy_drop Z.add
         toy_head_logits toy_cross_entropy 0 toy_bin_loss_fct example_embeds None
       = Ok (logits_only (toy_head_logits inputs_embeds))
    /\ forall labels,
         forward (fun e : Z => e) toy_position_embeds (fun v => v) toy_drop Z.add
           toy_head_logits toy_cross_entropy 0 toy_bin_loss_fct example_embeds
           (Some labels)
         = (bl ← bin_loss 0 toy_bin_loss_fct (toy_head_logits inputs_embeds) labels;
            Ok (loss_and_logits
                  (fadd (toy_cross_entropy 4 (toy_head_logits inputs_embeds) labels) bl)
                  (toy_head_logits inputs_embeds))).
Proof.
  apply (forward_reverses_turns (fun e : Z => e) toy_position_embeds (fun v => v)
           toy_drop Z.add toy_head_logits toy_cross_entropy toy_bin_loss_fct
           example_embeds 0 10 20 30).
  - repeat constructor.
  - reflexivity.
Defined.

Lemma transform_data_shape_and_mask_witness :
  exists padded attention_mask,
    transform_data toy_encode example_df 12 = Ok (padded, attention_mask)
    /\ shape_of padded
       = match example_df with
         | [] => [0%nat]
         | _ :: _ => [length example_df; 3%nat; 12%nat]
         end
    /\ shape_of attention_mask = shape_of padded
    /\ (forall (i : nat) (r : conversation),
          example_df !! i = Some r ->
          padded !! i
          = Some (map (fun turn =>
                         toy_encode turn 12
                         ++ replicate (12 - length (toy_encode turn 12)) 0)
                      [turn1 r; turn2 r; turn3 r]))
    /\ (forall i j k : nat,
          (entry3 attention_mask i j k = Some 0 <-> entry3 padded i j k = Some 0)
          /\ (entry3 attention_mask i j k = Some 1
              <-> exists x, entry3 padded i j k = Some x /\ x <> 0)
          /\ (is_Some (entry3 attention_mask i j k)
              <-> is_Some (entry3 padded i j k))).
Proof.
  apply (transform_data_shape_and_mask toy_encode example_df 12).
  apply Forall_forall. intros turn _. apply toy_encode_max_length.
Defined.

(** C5 as the specification has it, for every frame, fails on the frame
    without conversations: no turn is tokenized, and the tensors have the
    shape (0,), not (0, 3, max_seq_len). *)
Lemma transform_data_empty_frame_shape :
  transform_data toy_encode [] 12 = Ok ([], [])
  /\ shape_of [] = [0%nat]
  /\ ~ (exists padded attention_mask,
          transform_data toy_encode [] 12 = Ok (padded, attention_mask)
          /\ shape_of padded = [0%nat; 3%nat; 12%nat]).
Proof.
  split; [reflexivity|]. split; [reflexivity|].
  intros (padded & attention_mask & E & Hshape).
  vm_compute in E. injection E as <- <-. discriminate Hshape.
Qed.

Lemma get_labels_key_error_witness :
  get_labels ([row_with "happy"] ++ row_with "joy" :: [row_with "sad"])
             EmotionModel.emo_dict
  = Raise (KeyError "joy").
Proof.
  apply (proj2 (proj2 (proj2 (proj2 get_labels_bijection_and_key_error)))
           EmotionModel.emo_dict [row_with "happy"] [row_with "sad"] (row_with "joy")).
  - constructor; [|constructor]. exists 3. vm_compute. reflexivity.
  - vm_compute. reflexivity.
Defined.

End instances.

(** ** More on metrics: batches, order, errors *)

Section metrics_batches.
Import torch model spec examples.

Lemma mapM_Ok_Forall2 {A B : Type} (f : A -> result B) (xs : list A) (ys : list B) :
  mapM f xs = Ok ys <-> Forall2 (fun x y => f x = Ok y) xs ys.
Proof.
  revert ys. induction xs as [|x xs IH]; intros ys; cbn [mapM].
  - split.
    + intros [= <-]. constructor.
    + intros H. inversion H. reflexivity.
  - split.
    + destruct (f x) as [y|e] eqn:Ex; [|discriminate].
      cbn [mbind result_bind].
      destruct (mapM f xs) as [ys'|e] eqn:Exs; [|discriminate].
      intros [= <-]. constructor; [exact Ex|]. by apply IH.
    + intros H. inversion H as [|x0 y xs0 ys' Hxy Hrest]; subst.
      rewrite Hxy. cbn [mbind result_bind].
      rewrite (proj2 (IH ys') Hrest). reflexivity.
Qed.

Lemma mapM_Ok_app {A B : Type} (f : A -> result B) (xs1 xs2 : list A)
    (ys1 ys2 : list B) :
  mapM f xs1 = Ok ys1 -> mapM f xs2 = Ok ys2 ->
  mapM f (xs1 ++ xs2) = Ok (ys1 ++ ys2).
Proof.
  rewrite !mapM_Ok_Forall2. apply Forall2_app.
Qed.

Lemma mapM_Ok_length {A B : Type} (f : A -> result B) (xs : list A) (ys : list B) :
  mapM f xs = Ok ys -> length xs = length ys.
Proof. rewrite mapM_Ok_Forall2. apply Forall2_length. Qed.

Lemma count_pairs_app (f : Z * Z -> bool) (ps qs : list (Z * Z)) :
  count_pairs f (ps ++ qs) = count_pairs f ps + count_pairs f qs.
Proof.
  unfold count_pairs. rewrite List.filter_app, length_app. lia.
Qed.

Lemma count_non_others_app (xs ys : list Z) :
  count_non_others (xs ++ ys) = count_non_others xs + count_non_others ys.
Proof.
  unfold count_non_others. rewrite List.filter_app, length_app. lia.
Qed.

Lemma matches_le (labels preds : list Z) :
  (matches labels preds <= length labels)%nat.
Proof.
  unfold matches.
  etransitivity; [apply List.filter_length_le|].
  rewrite length_zip_with. lia.
Qed.

Lemma mean_bool_zip_eqb (labels preds : list Z) :
  length labels = length preds ->
  mean_bool (zip_with Z.eqb labels preds)
  = ratio_of_counts (matches labels preds) (length labels).
Proof.
  intros Hlen. unfold mean_bool.
  assert (Hm : length (filter (fun b : bool => b = true) (zip_with Z.eqb labels preds))
               = matches labels preds).
  { clear Hlen. unfold matches. revert preds.
    induction labels as [|l labels IH]; intros [|p preds]; try reflexivity.
    change (zip_with Z.eqb (l :: labels) (p :: preds))
      with ((l =? p) :: zip_with Z.eqb labels preds).
    change (zip (l :: labels) (p :: preds)) with ((l, p) :: zip labels preds).
    rewrite filter_cons. cbn [List.filter]. unfold agree at 1. cbn [fst snd].
    destruct (l =? p); [rewrite decide_True by done|rewrite decide_False by done];
      cbn [length]; by rewrite IH. }
  rewrite Hm, length_zip_with, <- Hlen, Nat.min_id.
  apply fdiv_counts. intros H0.
  pose proof (matches_le labels preds). lia.
Qed.

(** What [metrics] returns on a batch of class ids, field by field. *)
Lemma metrics_closed_form {L : Type} (loss : L) (logits : list (list Q))
    (labels preds : list Z) :
  mapM argmax logits = Ok preds ->
  length labels = length preds ->
  Forall class_id labels -> Forall class_id preds ->
  metrics loss logits labels
  = Ok {| val_loss := loss;
          val_acc := ratio_of_counts (matches labels preds) (length labels);
          tp := count_pairs hit (zip labels preds);
          fp := count_non_others preds - count_pairs hit (zip labels preds);
          fn := count_non_others labels - count_pairs hit (zip labels preds) |}.
Proof.
  intros Hpreds Hlen Hl Hp.
  destruct (metrics_counts loss logits labels preds Hpreds Hlen Hl Hp)
    as (s & E & T & P & N).
  rewrite E. f_equal. destruct s as [vl va t p n]. cbn [tp fp fn] in *.
  assert (Hv : vl = loss /\ va = ratio_of_counts (matches labels preds) (length labels)).
  { unfold metrics in E. rewrite Hpreds in E. cbn [mbind result_bind] in E.
    unfold eq_broadcast in E. rewrite Hlen, Nat.eqb_refl in E.
    cbn [mbind result_bind] in E.
    destruct (confusion labels preds) as [cm|e]; [|discriminate E].
    cbn [mbind result_bind] in E. injection E as <- <- _ _ _.
    split; [reflexivity|]. by apply mean_bool_zip_eqb. }
  destruct Hv as [-> ->]. f_equal; lia.
Qed.

(** X1. The counts of [metrics] add up over batches: on two batches put end to
    end, tp, fp and fn are the sums of the counts of the two batches. *)
Theorem metrics_counts_additive {L : Type} (loss1 loss2 loss : L)
    (logits1 logits2 : list (list Q)) (labels1 labels2 preds1 preds2 : list Z) :
  mapM argmax logits1 = Ok preds1 -> mapM argmax logits2 = Ok preds2 ->
  length labels1 = length preds1 -> length labels2 = length preds2 ->
  Forall class_id labels1 -> Forall class_id preds1 ->
  Forall class_id labels2 -> Forall class_id preds2 ->
  exists s1 s2 s,
    metrics loss1 logits1 labels1 = Ok s1
    /\ metrics loss2 logits2 labels2 = Ok s2
    /\ metrics loss (logits1 ++ logits2) (labels1 ++ labels2) = Ok s
    /\ tp s = tp s1 + tp s2
    /\ fp s = fp s1 + fp s2
    /\ fn s = fn s1 + fn s2.
Proof.
  intros Hp1 Hp2 Hlen1 Hlen2 Hl1 Hc1 Hl2 Hc2.
  eexists. eexists. eexists.
  split; [by apply metrics_closed_form|].
  split; [by apply metrics_closed_form|].
  split.
  { apply (metrics_closed_form loss _ _ (preds1 ++ preds2)).
    - by apply mapM_Ok_app.
    - rewrite !length_app. lia.
    - by apply Forall_app.
    - by apply Forall_app. }
  cbn [tp fp fn].
  rewrite zip_with_app by exact Hlen1.
  rewrite count_pairs_app, !count_non_others_app. lia.
Qed.

Lemma metrics_counts_additive_witness :
  exists s1 s2 s,
    metrics tt (take 2 example_logits) [1; 2] = Ok s1
    /\ metrics tt (drop 2 example_logits) [2; 0] = Ok s2
    /\ metrics tt (take 2 example_logits ++ drop 2 example_logits) ([1; 2] ++ [2; 0])
       = Ok s
    /\ tp s = tp s1 + tp s2
    /\ fp s = fp s1 + fp s2
    /\ fn s = fn s1 + fn s2.
Proof.
  apply (metrics_counts_additive tt tt tt (take 2 example_logits)
           (drop 2 example_logits) [1; 2] [2; 0] [1; 1] [2; 0]);
    try reflexivity; repeat constructor; unfold class_id; lia.
Defined.

Lemma class_examples_preds (batch : list (list Q * Z)) :
  Forall class_example batch ->
  mapM argmax (map fst batch) = Ok (map (fun rl => argmax_or0 rl.1) batch)
  /\ Forall class_id (map snd batch)
  /\ Forall class_id (map (fun rl => argmax_or0 rl.1) batch).
Proof.
  induction 1 as [|[row l] batch (Hl & p & Hp & Hc) _ (IH1 & IH2 & IH3)].
  - repeat split; constructor.
  - cbn [map fst snd] in *. split; [|split].
    + assert (H0 : argmax_or0 row = p) by (unfold argmax_or0; by rewrite Hp).
      cbn [mapM]. rewrite Hp, IH1, H0. reflexivity.
    + by constructor.
    + constructor; [|exact IH3]. unfold argmax_or0. by rewrite Hp.
Qed.

Lemma zip_map_pairs (batch : list (list Q * Z)) :
  zip (map snd batch) (map (fun rl => argmax_or0 rl.1) batch)
  = map (fun rl => (rl.2, argmax_or0 rl.1)) batch.
Proof.
  induction batch as [|rl batch IH]; [reflexivity|].
  cbn [map]. rewrite <- IH. reflexivity.
Qed.

Lemma filter_length_Permutation {A : Type} (f : A -> bool) (xs ys : list A) :
  xs ≡ₚ ys -> length (List.filter f xs) = length (List.filter f ys).
Proof.
  induction 1 as [|x xs ys _ IH|x y xs|xs ys zs _ IH1 _ IH2].
  - reflexivity.
  - cbn [List.filter]. destruct (f x); cbn [length]; by rewrite IH.
  - cbn [List.filter]. destruct (f x), (f y); reflexivity.
  - by rewrite IH1.
Qed.

(** X2. The order of the examples in a batch does not matter to [metrics]:
    two batches of class ids that are permutations of each other get the
    same accuracy and the same tp, fp and fn. *)
Theorem metrics_permutation_invariant {L : Type} (loss : L)
    (batch batch' : list (list Q * Z)) :
  batch ≡ₚ batch' ->
  Forall class_example batch ->
  exists s,
    metrics loss (map fst batch) (map snd batch) = Ok s
    /\ metrics loss (map fst batch') (map snd batch') = Ok s.
Proof.
  intros Hperm Hb.
  assert (Hb' : Forall class_example batch') by (by rewrite <- Hperm).
  destruct (class_examples_preds batch Hb) as (P1 & L1 & C1).
  destruct (class_examples_preds batch' Hb') as (P2 & L2 & C2).
  eexists. split.
  { apply (metrics_closed_form loss _ _ _ P1); [by rewrite !length_map|done..]. }
  rewrite (metrics_closed_form loss _ _ _ P2); [|by rewrite !length_map|done..].
  f_equal.
  assert (Hpairs : map (fun rl : list Q * Z => (rl.2, argmax_or0 rl.1)) batch
                   ≡ₚ map (fun rl => (rl.2, argmax_or0 rl.1)) batch').
  { by apply Permutation_map. }
  assert (Hpreds : map (fun rl : list Q * Z => argmax_or0 rl.1) batch
                   ≡ₚ map (fun rl => argmax_or0 rl.1) batch').
  { by apply Permutation_map. }
  assert (Hlabels : map snd batch ≡ₚ map snd batch') by (by apply Permutation_map).
  unfold matches, count_pairs, count_non_others. rewrite !zip_map_pairs, !length_map.
  rewrite (filter_length_Permutation agree _ _ Hpairs).
  rewrite (filter_length_Permutation hit _ _ Hpairs).
  rewrite (filter_length_Permutation non_others _ _ Hpreds).
  rewrite (filter_length_Permutation non_others _ _ Hlabels).
  rewrite (Permutation_length Hperm). reflexivity.
Qed.

Lemma metrics_permutation_invariant_witness :
  exists s,
    metrics tt (map fst (zip example_logits [1; 2; 2; 0]))
               (map snd (zip example_logits [1; 2; 2; 0])) = Ok s
    /\ metrics tt (map fst (reverse (zip example_logits [1; 2; 2; 0])))
                  (map snd (reverse (zip example_logits [1; 2; 2; 0]))) = Ok s.
Proof.
  apply (metrics_permutation_invariant tt (zip example_logits [1; 2; 2; 0])
           (reverse (zip example_logits [1; 2; 2; 0]))).
  - symmetry. apply reverse_Permutation.
  - unfold example_logits. cbn [zip zip_with].
    repeat (apply List.Forall_cons;
            [split; [unfold class_id; cbn [snd]; lia
                    |eexists; split; [vm_compute; reflexivity|unfold class_id; lia]]|]).
    apply List.Forall_nil.
Defined.

Lemma count_agree_split (ps : list (Z * Z)) :
  Forall (fun lp => class_id lp.1 /\ class_id lp.2) ps ->
  count_pairs agree ps = count_pairs hit ps + count_pairs both_others ps.
Proof.
  induction 1 as [|[l p] ps [Hl Hp] _ IH].
  - reflexivity.
  - rewrite !count_pairs_cons, IH. unfold agree, hit, both_others, non_others.
    cbn [fst snd] in *. unfold class_id in *.
    destruct (Z.eqb_spec l p), (Z.eqb_spec l 0), (Z.eqb_spec p 0),
      (Z.leb_spec 1 l), (Z.leb_spec l 3); cbn [andb b2z]; lia.
Qed.

(** X3. The accuracy of [metrics] is the number of predictions equal to their
    label over the size of the batch, undefined (NaN) exactly on the empty
    batch; on class ids the number of equal pairs is tp plus the number of
    "others" predicted as "others", so tp never exceeds it. *)
Theorem metrics_accuracy {L : Type} (loss : L) (logits : list (list Q))
    (labels preds : list Z) :
  mapM argmax logits = Ok preds ->
  length labels = length preds ->
  Forall class_id labels -> Forall class_id preds ->
  exists s,
    metrics loss logits labels = Ok s
    /\ val_loss s = loss
    /\ val_acc s = ratio_of_counts (matches labels preds) (length labels)
    /\ (val_acc s = NaN <-> labels = [])
    /\ Z.of_nat (matches labels preds)
       = tp s + count_pairs both_others (zip labels preds)
    /\ tp s <= Z.of_nat (matches labels preds) <= Z.of_nat (length labels).
Proof.
  intros Hpreds Hlen Hl Hp. eexists.
  split; [by apply metrics_closed_form|]. cbn [val_loss val_acc tp].
  split; [reflexivity|]. split; [reflexivity|].
  assert (Hsplit := count_agree_split _ (Forall_zip_class_id _ _ Hl Hp)).
  assert (Hle := matches_le labels preds).
  assert (H0 : 0 <= count_pairs both_others (zip labels preds)).
  { unfold count_pairs. lia. }
  unfold count_pairs at 1 in Hsplit. fold (matches labels preds) in Hsplit.
  split; [|split; lia].
  unfold ratio_of_counts. destruct labels as [|l labels]; cbn [length Nat.eqb].
  - split; reflexivity.
  - split; [discriminate|discriminate].
Qed.

Lemma metrics_accuracy_witness :
  exists s,
    metrics tt example_logits [1; 2; 2; 0] = Ok s
    /\ val_loss s = tt
    /\ val_acc s = ratio_of_counts (matches [1; 2; 2; 0] [1; 1; 2; 0])
                                   (length [1; 2; 2; 0])
    /\ (val_acc s = NaN <-> [1; 2; 2; 0] = [])
    /\ Z.of_nat (matches [1; 2; 2; 0] [1; 1; 2; 0])
       = tp s + count_pairs both_others (zip [1; 2; 2; 0] [1; 1; 2; 0])
    /\ tp s <= Z.of_nat (matches [1; 2; 2; 0] [1; 1; 2; 0])
            <= Z.of_nat (length [1; 2; 2; 0]).
Proof.
  apply (metrics_accuracy tt example_logits [1; 2; 2; 0] [1; 1; 2; 0]);
    try reflexivity; repeat constructor; unfold class_id; lia.
Defined.

Lemma norm_index4_ok (x : Z) :
  index4 x -> exists i, norm_index 4 x = Ok i.
Proof.
  unfold index4, norm_index. intros H.
  destruct (Z.leb_spec 0 x), (Z.ltb_spec x (Z.of_nat 4)); cbn [andb];
    try (eexists; reflexivity); try lia.
  destruct (Z.leb_spec (- Z.of_nat 4) x), (Z.ltb_spec x 0); cbn [andb];
    try (eexists; reflexivity); lia.
Qed.

Lemma norm_index4_error (x : Z) :
  ~ index4 x -> norm_index 4 x = Raise IndexError.
Proof.
  unfold index4, norm_index. intros H.
  destruct (Z.leb_spec 0 x), (Z.ltb_spec x (Z.of_nat 4)); cbn [andb]; try lia;
    destruct (Z.leb_spec (- Z.of_nat 4) x), (Z.ltb_spec x 0); cbn [andb];
    try reflexivity; lia.
Qed.

Lemma index4_dec (x : Z) : index4 x \/ ~ index4 x.
Proof. unfold index4. lia. Qed.

Lemma cm_incr_ok (cm : list (list Z)) (lp : Z * Z) :
  index4_pair lp -> exists cm', cm_incr cm lp = Ok cm'.
Proof.
  intros [H1 H2]. unfold cm_incr.
  destruct (norm_index4_ok _ H1) as [i ->], (norm_index4_ok _ H2) as [j ->].
  eexists. reflexivity.
Qed.

Lemma cm_incr_error (cm : list (list Z)) (lp : Z * Z) :
  ~ index4_pair lp -> cm_incr cm lp = Raise IndexError.
Proof.
  intros H. unfold cm_incr, index4_pair in *.
  destruct (index4_dec lp.1) as [H1|H1].
  - destruct (norm_index4_ok _ H1) as [i ->]. cbn [mbind result_bind].
    rewrite norm_index4_error; [reflexivity|tauto].
  - by rewrite (norm_index4_error _ H1).
Qed.

Lemma foldM_cm_incr_ok (ps : list (Z * Z)) : forall cm : list (list Z),
  Forall index4_pair ps -> exists cm', foldM cm_incr ps cm = Ok cm'.
Proof.
  induction ps as [|lp ps IH]; intros cm Hps.
  - eexists. reflexivity.
  - apply Forall_cons in Hps. destruct Hps as [Hlp Hps].
    destruct (cm_incr_ok cm lp Hlp) as [cm1 E1].
    cbn [foldM]. rewrite E1. cbn [mbind result_bind]. by apply IH.
Qed.

Lemma foldM_cm_incr_error (ps : list (Z * Z)) : forall cm : list (list Z),
  Exists (fun lp => ~ index4_pair lp) ps -> foldM cm_incr ps cm = Raise IndexError.
Proof.
  induction ps as [|lp ps IH]; intros cm Hps.
  - inversion Hps.
  - cbn [foldM].
    assert (Hd : index4_pair lp \/ ~ index4_pair lp).
    { unfold index4_pair, index4. lia. }
    destruct Hd as [Hok|Hbad].
    + destruct (cm_incr_ok cm lp Hok) as [cm1 ->]. cbn [mbind result_bind].
      apply IH. inversion Hps; [contradiction|assumption].
    + by rewrite (cm_incr_error cm lp Hbad).
Qed.

(** X4. [metrics] accepts a batch exactly when every label and prediction is an
    index of the 4x4 matrix, from either end (-4 to 3): then it returns its
    scores, and otherwise the first bad pair raises an IndexError. *)
Theorem metrics_index_error {L : Type} (loss : L) (logits : list (list Q))
    (labels preds : list Z) :
  mapM argmax logits = Ok preds ->
  length labels = length preds ->
  (Forall index4_pair (zip labels preds) ->
     exists s, metrics loss logits labels = Ok s)
  /\ (Exists (fun lp => ~ index4_pair lp) (zip labels preds) ->
        metrics loss logits labels = Raise IndexError).
Proof.
  intros Hpreds Hlen. unfold metrics. rewrite Hpreds. cbn [mbind result_bind].
  unfold eq_broadcast. rewrite Hlen, Nat.eqb_refl. cbn [mbind result_bind].
  unfold confusion. split.
  - intros Hok. destruct (foldM_cm_incr_ok _ (zeros 4 4) Hok) as [cm ->].
    eexists. reflexivity.
  - intros Hbad. by rewrite (foldM_cm_incr_error _ (zeros 4 4) Hbad).
Qed.

Lemma metrics_index_error_witness :
  (Forall index4_pair (zip [1; 4] [1; 1]) ->
     exists s, metrics tt (take 2 example_logits) [1; 4] = Ok s)
  /\ (Exists (fun lp => ~ index4_pair lp) (zip [1; 4] [1; 1]) ->
        metrics tt (take 2 example_logits) [1; 4] = Raise IndexError).
Proof.
  apply (metrics_index_error tt (take 2 example_logits) [1; 4] [1; 1]);
    reflexivity.
Defined.

(** X5. [metrics] refuses labels and predictions of different sizes: unless
    one of the two has a single entry, which the comparison for the accuracy
    broadcasts, it raises a RuntimeError and counts nothing. *)
Theorem metrics_size_mismatch {L : Type} (loss : L) (logits : list (list Q))
    (labels preds : list Z) :
  mapM argmax logits = Ok preds ->
  length labels <> length preds ->
  length labels <> 1%nat -> length preds <> 1%nat ->
  metrics loss logits labels = Raise RuntimeError.
Proof.
  intros Hpreds Hne Hl Hp. unfold metrics. rewrite Hpreds.
  cbn [mbind result_bind]. unfold eq_broadcast.
  destruct (Nat.eqb_spec (length labels) (length preds)); [contradiction|].
  destruct (Nat.eqb_spec (length labels) 1); [contradiction|].
  destruct (Nat.eqb_spec (length preds) 1); [contradiction|].
  reflexivity.
Qed.

Lemma metrics_size_mismatch_witness :
  metrics tt example_logits [1; 2; 2] = Raise RuntimeError.
Proof.
  apply (metrics_size_mismatch tt example_logits [1; 2; 2] [1; 1; 2; 0]);
    [reflexivity|cbn; lia..].
Defined.

(** X6. A single label against a batch of several predictions is not
    refused: the comparison for the accuracy broadcasts the label over all
    the predictions, while the loop over the pairs stops after the first
    one, so the counts see one example only. *)
Theorem metrics_broadcast_single_label {L : Type} (loss : L)
    (logits : list (list Q)) (l p : Z) (preds : list Z) :
  mapM argmax logits = Ok (p :: preds) ->
  preds <> [] ->
  class_id l -> class_id p ->
  exists s,
    metrics loss logits [l] = Ok s
    /\ val_acc s = mean_bool (map (Z.eqb l) (p :: preds))
    /\ tp s = b2z (hit (l, p))
    /\ tp s + fp s = b2z (non_others p)
    /\ tp s + fn s = b2z (non_others l)
    /\ 0 <= tp s + fp s + fn s <= 2.
Proof.
  intros Hpreds Hne Hl Hp. unfold metrics. rewrite Hpreds.
  cbn [mbind result_bind]. unfold eq_broadcast.
  destruct preds as [|p' preds]; [done|]. cbn [length Nat.eqb hd].
  cbn [mbind result_bind]. unfold confusion. cbn [zip_with].
  destruct (foldM_cm_incr_sums [(l, p)] (zeros 4 4) shape44_zeros)
    as (cm & -> & _ & T & P & N).
  { constructor; [split; assumption|constructor]. }
  cbn [mbind result_bind]. eexists. split; [reflexivity|].
  cbn [val_acc tp fp fn]. rewrite T, P, N.
  rewrite !count_pairs_cons. cbn [fst snd].
  change (count_pairs ?f []) with 0.
  change (sum (drop 1 (diagonal (zeros 4 4)))) with 0.
  change (sum2 (map (drop 1) (zeros 4 4))) with 0.
  change (sum2 (drop 1 (zeros 4 4))) with 0.
  split; [reflexivity|]. unfold hit. cbn [fst snd].
  destruct (l =? p), (non_others l), (non_others p); cbn [andb b2z];
    repeat split; lia.
Qed.

Lemma metrics_broadcast_single_label_witness :
  exists s,
    metrics tt example_logits [1] = Ok s
    /\ val_acc s = mean_bool (map (Z.eqb 1) (1 :: [1; 2; 0]))
    /\ tp s = b2z (hit (1, 1))
    /\ tp s + fp s = b2z (non_others 1)
    /\ tp s + fn s = b2z (non_others 1)
    /\ 0 <= tp s + fp s + fn s <= 2.
Proof.
  apply (metrics_broadcast_single_label tt example_logits 1 1 [1; 2; 0]);
    [reflexivity|discriminate|unfold class_id; lia..].
Defined.

End metrics_batches.

(** ** More on f1_score: closed form, symmetry, bounds *)

Section f1_score_more.
Import torch model spec.

Lemma Qsign_pos (q : Q) : (0 < q)%Q -> Qsign q = 1.
Proof.
  unfold Qlt, Qsign. cbn. intros H. rewrite Z.mul_1_r in H.
  destruct (Qnum q); cbn; lia.
Qed.

Lemma inject_nat_pos (n : nat) : (0 < n)%nat -> (0 < inject_Z (Z.of_nat n))%Q.
Proof. intros H. unfold Qlt. cbn. lia. Qed.

Lemma inject_nat_nonneg (n : nat) : (0 <= inject_Z (Z.of_nat n))%Q.
Proof. unfold Qle. cbn. lia. Qed.

Lemma inject_nat_add (n m : nat) :
  inject_Z (Z.of_nat (n + m)) = (inject_Z (Z.of_nat n) + inject_Z (Z.of_nat m))%Q.
Proof. by rewrite Nat2Z.inj_add, inject_Z_plus. Qed.

Lemma ratio_of_counts_pos (a b : nat) :
  (0 < b)%nat ->
  ratio_of_counts a b = fin (inject_Z (Z.of_nat a) / inject_Z (Z.of_nat b)).
Proof.
  intros H. unfold ratio_of_counts. destruct (Nat.eqb_spec b 0); [lia|reflexivity].
Qed.

Lemma f1_of_ratios (p r q : Q) :
  (0 < p + r)%Q ->
  (2 * (p * r) / (p + r) == q)%Q ->
  fdiv (fmul (fin 2) (fmul (fin p) (fin r))) (fadd (fin p) (fin r)) = fin q.
Proof.
  intros Hpos Hq.
  assert (Hs : Qsign (Qred (Qred p + Qred r)) = 1).
  { rewrite Qsign_Qred. apply Qsign_pos. by rewrite !Qred_correct. }
  unfold fin at 1 2 3 4 5.
  change (fmul (Fin (Qred p)) (Fin (Qred r))) with (Fin (Qred (Qred p * Qred r))).
  change (fmul (Fin (Qred 2)) (Fin ?x)) with (Fin (Qred (Qred 2 * x))).
  change (fadd (Fin (Qred p)) (Fin (Qred r))) with (Fin (Qred (Qred p + Qred r))).
  change (fdiv (Fin ?a) (Fin ?b))
    with (if Qsign b =? 0 then inf_of_sign (Qsign a) else fin (a / b)).
  rewrite Hs. change (1 =? 0) with false. cbv iota. apply fin_Qeq.
  rewrite !Qred_correct. exact Hq.
Qed.

Lemma f1_score_no_true_positive (fp fn : nat) :
  f1 (f1_score (of_count 0) (of_count (Z.of_nat fp)) (of_count (Z.of_nat fn))) = NaN.
Proof.
  unfold f1_score. cbn [f1].
  rewrite !fadd_of_count.
  change 0 with (Z.of_nat 0). rewrite <- !Nat2Z.inj_add.
  rewrite !fdiv_counts by lia. unfold ratio_of_counts.
  cbn [Nat.add].
  destruct (Nat.eqb_spec fp 0), (Nat.eqb_spec fn 0); reflexivity.
Qed.

(** In the exact arithmetic of the model the f1 value of counts has a closed
    form. Floats round it, so it is used for the NaN cases and for bounds
    only. *)
Lemma f1_of_counts (tp fp fn : nat) :
  f1 (f1_score (of_count (Z.of_nat tp)) (of_count (Z.of_nat fp))
               (of_count (Z.of_nat fn)))
  = if (tp =? 0)%nat then NaN
    else fin (inject_Z (Z.of_nat (2 * tp))
              / inject_Z (Z.of_nat (2 * tp + fp + fn))).
Proof.
  destruct (Nat.eqb_spec tp 0) as [->|Htp].
  - apply f1_score_no_true_positive.
  - unfold f1_score. cbn [f1].
    rewrite !fadd_of_count, <- !Nat2Z.inj_add.
    rewrite !fdiv_counts by lia. rewrite !ratio_of_counts_pos by lia.
    assert (Ha := inject_nat_pos tp ltac:(lia)).
    assert (Hb := inject_nat_nonneg fp).
    assert (Hc := inject_nat_nonneg fn).
    replace (2 * tp + fp + fn)%nat with (tp + (tp + (fp + fn)))%nat by lia.
    replace (2 * tp)%nat with (tp + tp)%nat by lia.
    rewrite !inject_nat_add.
    set (a := inject_Z (Z.of_nat tp)) in *.
    set (b := inject_Z (Z.of_nat fp)) in *.
    set (c := inject_Z (Z.of_nat fn)) in *.
    assert (Hab : (0 < a + b)%Q) by lra.
    assert (Hac : (0 < a + c)%Q) by lra.
    assert (Hp : (0 < a / (a + b))%Q).
    { apply Qlt_shift_div_l; [exact Hab|lra]. }
    assert (Hr : (0 < a / (a + c))%Q).
    { apply Qlt_shift_div_l; [exact Hac|lra]. }
    apply f1_of_ratios; [lra|].
    field. repeat split; try lra.
    intros E.
    assert (Hn : (0 < a * (a + c) + a * (a + b))%Q) by nra.
    rewrite E in Hn. by apply Qlt_irrefl in Hn.
Qed.

(** X7. On counts that a float32 tensor holds exactly, the values of
    [f1_score] are undefined (NaN) in these cases and no other: the
    precision when nothing was predicted as an emotion (tp + fp = 0), the
    recall when no example has an emotion (tp + fn = 0), and the f1 value
    when there is no true positive (tp = 0). *)
Theorem f1_score_nan_iff (tp fp fn : nat) :
  exact_count tp -> exact_count fp -> exact_count fn ->
  let r := f1_score (of_count (Z.of_nat tp)) (of_count (Z.of_nat fp))
                    (of_count (Z.of_nat fn)) in
  (precision r = NaN <-> (tp + fp)%nat = 0%nat)
  /\ (recall r = NaN <-> (tp + fn)%nat = 0%nat)
  /\ (f1 r = NaN <-> tp = 0%nat).
Proof.
  intros _ _ _. cbv zeta.
  assert (Hratio : forall a b : nat, (a <= b)%nat ->
            ratio_of_counts a b = NaN <-> b = 0%nat).
  { intros a b Hab. unfold ratio_of_counts.
    destruct (Nat.eqb_spec b 0) as [->|Hb]; [done|].
    split; [discriminate|contradiction]. }
  split; [|split].
  - unfold f1_score. cbn [precision].
    rewrite fadd_of_count, <- Nat2Z.inj_add, fdiv_counts by lia.
    apply Hratio. lia.
  - unfold f1_score. cbn [recall].
    rewrite fadd_of_count, <- Nat2Z.inj_add, fdiv_counts by lia.
    apply Hratio. lia.
  - rewrite f1_of_counts. destruct (Nat.eqb_spec tp 0) as [->|Htp].
    + split; reflexivity.
    + split; [discriminate|contradiction].
Qed.

Lemma f1_score_nan_iff_witness :
  let r := f1_score (of_count (Z.of_nat 0)) (of_count (Z.of_nat 2))
                    (of_count (Z.of_nat 0)) in
  (precision r = NaN <-> (0 + 2)%nat = 0%nat)
  /\ (recall r = NaN <-> (0 + 0)%nat = 0%nat)
  /\ (f1 r = NaN <-> 0%nat = 0%nat).
Proof. apply (f1_score_nan_iff 0 2 0); reflexivity. Defined.

Lemma fadd_comm (x y : tfloat) : fadd x y = fadd y x.
Proof.
  destruct x, y; try reflexivity. unfold fadd. apply fin_Qeq. apply Qplus_comm.
Qed.

Lemma fmul_comm (x y : tfloat) : fmul x y = fmul y x.
Proof.
  destruct x as [| | |a], y as [| | |b]; try reflexivity.
  - unfold fmul, sign_of. by rewrite Z.mul_comm.
  - unfold fmul, sign_of. by rewrite Z.mul_comm.
  - unfold fmul, sign_of. by rewrite Z.mul_comm.
  - unfold fmul, sign_of. by rewrite Z.mul_comm.
  - unfold fmul. apply fin_Qeq. apply Qmult_comm.
Qed.

(** X8. Exchanging the false positives and the false negatives exchanges the
    precision and the recall and leaves the f1 value as it is, for any float
    arguments. *)
Theorem f1_score_swap (tp fp fn : tfloat) :
  precision (f1_score tp fn fp) = recall (f1_score tp fp fn)
  /\ recall (f1_score tp fn fp) = precision (f1_score tp fp fn)
  /\ f1 (f1_score tp fn fp) = f1 (f1_score tp fp fn).
Proof.
  unfold f1_score. cbn [precision recall f1].
  split; [reflexivity|]. split; [reflexivity|].
  by rewrite (fmul_comm (fdiv tp (fadd tp fn))), (fadd_comm (fdiv tp (fadd tp fn))).
Qed.

(** X9. On counts with a true positive, precision, recall and f1 are numbers
    in (0, 1]. *)
Theorem f1_score_in_unit_interval (tp fp fn : nat) :
  (0 < tp)%nat ->
  exists p r f : Q,
    f1_score (of_count (Z.of_nat tp)) (of_count (Z.of_nat fp)) (of_count (Z.of_nat fn))
    = {| precision := Fin p; recall := Fin r; f1 := Fin f |}
    /\ (0 < p <= 1)%Q /\ (0 < r <= 1)%Q /\ (0 < f <= 1)%Q.
Proof.
  intros Htp.
  assert (Hf := f1_of_counts tp fp fn).
  destruct (Nat.eqb_spec tp 0) as [?|_]; [lia|].
  assert (Hunit : forall a b : nat, (0 < a)%nat -> (a <= b)%nat ->
            (0 < Qred (inject_Z (Z.of_nat a) / inject_Z (Z.of_nat b)) <= 1)%Q).
  { intros a b Ha Hab. rewrite Qred_correct.
    assert (Hb := inject_nat_pos b ltac:(lia)).
    assert (Ha' := inject_nat_pos a Ha).
    assert (Hle : (inject_Z (Z.of_nat a) <= inject_Z (Z.of_nat b))%Q).
    { rewrite <- Zle_Qle. lia. }
    split.
    - apply Qlt_shift_div_l; [exact Hb|lra].
    - apply Qle_shift_div_r; [exact Hb|lra]. }
  eexists. eexists. eexists. split.
  - unfold f1_score in *. cbn [f1] in Hf. rewrite Hf.
    rewrite !fadd_of_count, <- !Nat2Z.inj_add.
    rewrite !fdiv_counts by lia. rewrite !ratio_of_counts_pos by lia.
    unfold fin. reflexivity.
  - split; [apply Hunit; lia|]. split; [apply Hunit; lia|apply Hunit; lia].
Qed.

Lemma f1_score_in_unit_interval_witness :
  exists p r f : Q,
    f1_score (of_count (Z.of_nat 3)) (of_count (Z.of_nat 1)) (of_count (Z.of_nat 0))
    = {| precision := Fin p; recall := Fin r; f1 := Fin f |}
    /\ (0 < p <= 1)%Q /\ (0 < r <= 1)%Q /\ (0 < f <= 1)%Q.
Proof. apply (f1_score_in_unit_interval 3 1 0). lia. Defined.

End f1_score_more.

(** ** The optimizer's parameter groups *)

Section configure_optimizers_facts.
Import model EmotionModel.

Lemma decay_power_unit (decay : Q) (k : Z) :
  (0 < decay)%Q -> (decay < 1)%Q -> 0 < k ->
  (0 < decay ^ k)%Q /\ (decay ^ k < 1)%Q.
Proof.
  intros Hpos Hlt Hk. split; [by apply Qpower_0_lt|].
  change 1%Q with (decay ^ 0)%Q. apply decay_power_lt; [assumption..|lia].
Qed.

Lemma decay_power_le (decay : Q) (a b : Z) :
  (0 < decay)%Q -> (decay < 1)%Q -> 0 <= a <= b ->
  (decay ^ b <= decay ^ a)%Q.
Proof.
  intros Hpos Hlt [Ha Hab].
  destruct (Z.eq_dec a b) as [->|Hne]; [apply Qle_refl|].
  apply Qlt_le_weak. apply decay_power_lt; [assumption..|lia].
Qed.

(** The exponent of the decay in every group of [layerwise_lr]. *)
Lemma layerwise_lr_exponent (num_layers : nat) (lr decay : Q) (i : nat)
    (g : param_group) :
  (0 < num_layers)%nat ->
  layerwise_lr num_layers lr decay !! i = Some g ->
  exists k : Z, 0 < k <= Z.of_nat num_layers + 1 /\ model.lr g = (lr * decay ^ k)%Q.
Proof.
  intros Hn Hg.
  assert (Hi : (i < S num_layers)%nat).
  { rewrite <- (layerwise_lr_length num_layers lr decay).
    apply lookup_lt_is_Some. by eexists. }
  destruct i as [|l].
  - rewrite layerwise_lr_embeddings in Hg. injection Hg as <-.
    exists (Z.of_nat num_layers). split; [lia|reflexivity].
  - rewrite layerwise_lr_layer in Hg by lia. injection Hg as <-.
    exists (Z.of_nat num_layers - Z.of_nat l + 1). split; [lia|reflexivity].
Qed.

(** X10. The optimizer of a run gets one group for the embeddings, one for each
    layer of the encoder and a last one for the classifier, which takes the
    default rate [lr]; with a decay between 0 and 1 every group of the
    encoder learns strictly slower than the classifier, and none slower
    than [lr * decay ^ (num_layers + 1)], the rate of the first layer. *)
Theorem configure_optimizers_rates (num_layers : nat) (lr decay : Q) :
  (0 < num_layers)%nat -> (0 < lr)%Q -> (0 < decay)%Q -> (decay < 1)%Q ->
  exists optimizer,
    configure_optimizers num_layers lr decay
    = Ok ([optimizer], [ {| scheduled := optimizer; T_max := 10 |} ])
    /\ length optimizer = (num_layers + 2)%nat
    /\ optimizer !! (num_layers + 1)%nat = Some (classifier_params, lr)
    /\ optimizer !! 1%nat
       = Some (encoder_params (bert_transformer_layer 0),
               (lr * decay ^ (Z.of_nat num_layers + 1))%Q)
    /\ forall (i : nat) (p : params_of) (r : Q),
         optimizer !! i = Some (encoder_params p, r) ->
         (lr * decay ^ (Z.of_nat num_layers + 1) <= r)%Q /\ (r < lr)%Q.
Proof.
  intros Hn Hlr Hpos Hlt. unfold configure_optimizers, AdamW.
  assert (H0 : Qle_bool 0 lr = true).
  { apply Qle_bool_iff. by apply Qlt_le_weak. }
  rewrite H0. cbn [mbind result_bind]. eexists. split; [reflexivity|].
  rewrite map_app. cbn [map group_params group_lr default].
  set (enc := map _ (map of_param_group _)).
  assert (Henc : forall i, enc !! i
            = (fun g => (encoder_params (params g), model.lr g))
              <$> layerwise_lr num_layers lr decay !! i).
  { intros i. unfold enc. change (map ?f ?xs) with (f <$> xs).
    rewrite !list_lookup_fmap.
    by destruct (layerwise_lr num_layers lr decay !! i). }
  assert (Hlen : length enc = S num_layers).
  { unfold enc. by rewrite !length_map, layerwise_lr_length. }
  split; [rewrite length_app, Hlen; cbn; lia|].
  split.
  { rewrite lookup_app_r by (rewrite Hlen; lia).
    rewrite Hlen. replace (num_layers + 1 - S num_layers)%nat with 0%nat by lia.
    reflexivity. }
  split.
  { rewrite lookup_app_l by (rewrite Hlen; lia).
    rewrite Henc, layerwise_lr_layer by lia. cbn.
    do 4 f_equal. lia. }
  intros i p r Hi.
  destruct (decide (i < S num_layers)%nat) as [Hlt_i|Hge].
  - rewrite lookup_app_l in Hi by (rewrite Hlen; lia).
    rewrite Henc in Hi.
    destruct (layerwise_lr num_layers lr decay !! i) as [g|] eqn:Eg;
      [|discriminate Hi].
    cbn in Hi. injection Hi as _ <-.
    destruct (layerwise_lr_exponent _ _ _ _ _ Hn Eg) as (k & Hk & ->).
    destruct (decay_power_unit decay k Hpos Hlt ltac:(lia)) as [Hk0 Hk1].
    split.
    + apply Qmult_le_l; [assumption|].
      apply decay_power_le; [assumption..|lia].
    + rewrite <- (Qmult_1_r lr) at 2. by apply Qmult_lt_l.
  - rewrite lookup_app_r in Hi by (rewrite Hlen; lia). rewrite Hlen in Hi.
    destruct (i - S num_layers)%nat; [discriminate Hi|]. discriminate Hi.
Qed.

Lemma configure_optimizers_rates_witness :
  exists optimizer,
    configure_optimizers 6 1 (1 # 2)
    = Ok ([optimizer], [ {| scheduled := optimizer; T_max := 10 |} ])
    /\ length optimizer = (6 + 2)%nat
    /\ optimizer !! (6 + 1)%nat = Some (classifier_params, 1%Q)
    /\ optimizer !! 1%nat
       = Some (encoder_params (bert_transformer_layer 0),
               (1 * (1 # 2) ^ (Z.of_nat 6 + 1))%Q)
    /\ forall (i : nat) (p : params_of) (r : Q),
         optimizer !! i = Some (encoder_params p, r) ->
         (1 * (1 # 2) ^ (Z.of_nat 6 + 1) <= r)%Q /\ (r < 1)%Q.
Proof.
  apply (configure_optimizers_rates 6 1 (1 # 2)); [lia|reflexivity..].
Defined.

End configure_optimizers_facts.

(** ** The validation epoch: steps and their aggregation *)

Section validation_facts.
Import torch model spec EmotionModel examples.

Context {Ids Mask : Type}.
Variable forward_with_labels :
  Ids -> Mask -> list Z -> result (tfloat * list (list Q)).

Local Abbreviation step_of := (validation_step forward_with_labels).

(** What [forward] returned for each batch, a batch of class ids. *)
Local Abbreviation forwarded :=
  (Forall2 (fun (b : Ids * Mask * list Z) (o : tfloat * list (list Q)) =>
              forward_with_labels b.1.1 b.1.2 b.2 = Ok o /\ class_batch o.2 b.2)).

Lemma class_batch_preds (logits : list (list Q)) (labels : list Z) :
  class_batch logits labels ->
  mapM argmax logits = Ok (map argmax_or0 logits)
  /\ Forall class_id labels
  /\ Forall class_id (map argmax_or0 logits).
Proof.
  intros [Hlen Hex].
  destruct (class_examples_preds _ Hex) as (P & L & C).
  change (map fst ?xs) with (xs.*1) in P.
  change (map snd ?xs) with (xs.*2) in L.
  rewrite fst_zip in P by lia. rewrite snd_zip in L by lia.
  assert (E : map (fun rl : list Q * Z => argmax_or0 rl.1) (zip logits labels)
              = map argmax_or0 logits).
  { clear -Hlen. revert labels Hlen.
    induction logits as [|row logits IH]; intros [|l labels] Hlen;
      try discriminate; [reflexivity|].
    cbn [zip zip_with map fst]. f_equal. apply IH. by injection Hlen. }
  rewrite E in *. done.
Qed.

Lemma class_batch_metrics {L : Type} (loss : L) (logits : list (list Q))
    (labels : list Z) :
  class_batch logits labels ->
  metrics loss logits labels = Ok (scores_of loss logits labels).
Proof.
  intros Hb. destruct (class_batch_preds _ _ Hb) as (P & Hl & Hp).
  destruct Hb as [Hlen _].
  apply (metrics_closed_form loss logits labels _ P); [|done..].
  by rewrite length_map.
Qed.

Lemma class_batch_nil : class_batch [] [].
Proof. split; [reflexivity|constructor]. Qed.

Lemma class_batch_app (l1 l2 : list (list Q)) (b1 b2 : list Z) :
  class_batch l1 b1 -> class_batch l2 b2 -> class_batch (l1 ++ l2) (b1 ++ b2).
Proof.
  intros [H1 E1] [H2 E2]. split.
  - rewrite !length_app. lia.
  - rewrite zip_with_app by exact H1. by apply Forall_app.
Qed.

(** The counts of [scores_of] over two batches put end to end. *)
Lemma scores_of_app {L : Type} (loss1 loss2 loss : L) (l1 l2 : list (list Q))
    (b1 b2 : list Z) :
  length l1 = length b1 ->
  tp (scores_of loss (l1 ++ l2) (b1 ++ b2))
  = tp (scores_of loss1 l1 b1) + tp (scores_of loss2 l2 b2)
  /\ fp (scores_of loss (l1 ++ l2) (b1 ++ b2))
     = fp (scores_of loss1 l1 b1) + fp (scores_of loss2 l2 b2)
  /\ fn (scores_of loss (l1 ++ l2) (b1 ++ b2))
     = fn (scores_of loss1 l1 b1) + fn (scores_of loss2 l2 b2)
  /\ matches (b1 ++ b2) (map argmax_or0 (l1 ++ l2))
     = (matches b1 (map argmax_or0 l1) + matches b2 (map argmax_or0 l2))%nat.
Proof.
  intros Hlen. unfold scores_of, matches. cbn [tp fp fn].
  rewrite map_app, zip_with_app by (by rewrite length_map).
  rewrite count_pairs_app, !count_non_others_app, List.filter_app, length_app.
  repeat split; lia.
Qed.

Lemma forwarded_steps (batches : list (Ids * Mask * list Z))
    (outs : list (tfloat * list (list Q))) :
  forwarded batches outs ->
  mapM step_of batches
  = Ok (zip_with (fun b o => scores_of o.1 o.2 b.2) batches outs).
Proof.
  induction 1 as [|[[ids mask] labels] [loss logits] batches outs [Hf Hb] _ IH].
  - reflexivity.
  - cbn [fst snd] in *.
    assert (Hs : step_of (ids, mask, labels) = Ok (scores_of loss logits labels)).
    { unfold validation_step. rewrite Hf. cbn [mbind result_bind].
      by apply class_batch_metrics. }
    cbn [mapM zip_with fst snd]. rewrite Hs. cbn [mbind result_bind].
    rewrite IH. reflexivity.
Qed.

Lemma forwarded_class_batch (batches : list (Ids * Mask * list Z))
    (outs : list (tfloat * list (list Q))) :
  forwarded batches outs ->
  class_batch (concat (map snd outs)) (concat (map snd batches)).
Proof.
  induction 1 as [|b o batches outs [_ Hb] _ IH]; [apply class_batch_nil|].
  cbn [map concat]. by apply class_batch_app.
Qed.

(** The totals of the counts over the steps are the counts of the whole
    validation set. *)
Lemma forwarded_totals (loss : tfloat) (batches : list (Ids * Mask * list Z))
    (outs : list (tfloat * list (list Q))) :
  forwarded batches outs ->
  let outputs := zip_with (fun b o => scores_of o.1 o.2 b.2) batches outs in
  let whole := scores_of loss (concat (map snd outs)) (concat (map snd batches)) in
  forall z : Z,
    metric_total Z.add z tp outputs = z + tp whole
    /\ metric_total Z.add z fp outputs = z + fp whole
    /\ metric_total Z.add z fn outputs = z + fn whole.
Proof.
  cbv zeta.
  induction 1 as [|b o batches outs [_ [Hlen _]] _ IH]; intros z.
  - cbv -[Z.add]. lia.
  - cbn [zip_with map concat]. unfold metric_total in *. cbn [fold_left].
    destruct (scores_of_app o.1 loss loss o.2 (concat (map snd outs)) b.2
                (concat (map snd batches)) Hlen) as (T & P & N & _).
    rewrite T, P, N.
    destruct (IH (z + tp (scores_of o.1 o.2 b.2))) as (-> & _ & _).
    destruct (IH (z + fp (scores_of o.1 o.2 b.2))) as (_ & -> & _).
    destruct (IH (z + fn (scores_of o.1 o.2 b.2))) as (_ & _ & ->).
    lia.
Qed.

(** X11. Over an epoch of validation steps on batches of class ids, with
    fewer examples in all than the 2^24 up to which float32 sums of counts
    are exact, [validation_end] reports the counts of the whole validation
    set: its tp, fp and fn are those [metrics] gives on all the batches put
    end to end, so precision, recall and f1 do not depend on how the set
    was cut into batches; [log] and [progress_bar] hold the same dict and
    the top-level val_loss is the one of that dict. *)
Theorem validation_end_counts_whole_set (loss : tfloat)
    (batches : list (Ids * Mask * list Z))
    (outs : list (tfloat * list (list Q))) :
  batches <> [] ->
  forwarded batches outs ->
  exact_count (length (concat (map snd batches))) ->
  exists outputs r s,
    mapM step_of batches = Ok outputs
    /\ validation_end outputs = Ok r
    /\ metrics loss (concat (map snd outs)) (concat (map snd batches)) = Ok s
    /\ tp (totals (progress_bar r)) = tp s
    /\ fp (totals (progress_bar r)) = fp s
    /\ fn (totals (progress_bar r)) = fn s
    /\ prec_rec_f1 (progress_bar r)
       = f1_score (of_count (tp s)) (of_count (fp s)) (of_count (fn s))
    /\ log r = progress_bar r
    /\ val_loss r = model.val_loss (totals (progress_bar r)).
Proof.
  intros Hne Hf _.
  destruct (forwarded_totals loss batches outs Hf 0) as (T & P & N).
  rewrite !Z.add_0_l in T, P, N.
  assert (Hsteps := forwarded_steps batches outs Hf).
  assert (Hwhole := class_batch_metrics loss _ _ (forwarded_class_batch _ _ Hf)).
  destruct Hf as [|b o batches outs Hb Hf]; [done|].
  cbn [zip_with] in Hsteps, T, P, N.
  eexists. eexists. eexists.
  split; [exact Hsteps|]. split; [reflexivity|]. split; [exact Hwhole|].
  cbn [progress_bar log totals prec_rec_f1 val_loss model.val_loss tp fp fn].
  rewrite T, P, N. done.
Qed.


Lemma fadd_fin (a b : Q) : fadd (fin a) (fin b) = fin (a + b).
Proof.
  unfold fin, fadd. apply fin_Qeq. by rewrite !Qred_correct.
Qed.

Lemma fdiv_fin_count (a : Q) (k : nat) :
  (0 < k)%nat ->
  fdiv (fin a) (of_count (Z.of_nat k)) = fin (a / inject_Z (Z.of_nat k)).
Proof.
  intros Hk. unfold of_count, fin, fdiv.
  rewrite Qsign_Qred, Qsign_inject_Z.
  destruct (Z.eqb_spec (Z.sgn (Z.of_nat k)) 0) as [?|_]; [lia|].
  apply fin_Qeq. by rewrite !Qred_correct.
Qed.




Lemma scores_of_val_acc (loss : tfloat) (logits : list (list Q)) (labels : list Z) :
  labels <> [] ->
  val_acc (scores_of loss logits labels)
  = fin (inject_Z (Z.of_nat (matches labels (map argmax_or0 logits)))
         / inject_Z (Z.of_nat (length labels))).
Proof.
  intros Hne. unfold scores_of. cbn [val_acc].
  apply ratio_of_counts_pos. destruct labels; [done|cbn [length]; lia].
Qed.

(** X13. The val_acc of [validation_end] gives every batch the same
    weight, whatever its size: after a batch whose predictions are all right
    and a batch whose predictions are all wrong, of fewer than 2^24
    examples together, it is one half, while the accuracy that [metrics]
    gives over both batches is the share of the examples of the first. *)
Theorem validation_end_accuracy_unweighted (loss : tfloat)
    (b1 b2 : Ids * Mask * list Z) (o1 o2 : tfloat * list (list Q)) :
  forwarded [b1; b2] [o1; o2] ->
  b1.2 <> [] -> b2.2 <> [] ->
  exact_count (length b1.2 + length b2.2) ->
  matches b1.2 (map argmax_or0 o1.2) = length b1.2 ->
  matches b2.2 (map argmax_or0 o2.2) = 0%nat ->
  exists outputs r s,
    mapM step_of [b1; b2] = Ok outputs
    /\ validation_end outputs = Ok r
    /\ val_acc (totals (progress_bar r)) = Fin (1 # 2)
    /\ metrics loss (o1.2 ++ o2.2) (b1.2 ++ b2.2) = Ok s
    /\ val_acc s = ratio_of_counts (length b1.2) (length b1.2 + length b2.2).
Proof.
  intros Hf Hne1 Hne2 _ Hall Hnone.
  assert (Hsteps := forwarded_steps _ _ Hf).
  assert (Hwhole := class_batch_metrics loss _ _ (forwarded_class_batch _ _ Hf)).
  cbn [map concat zip_with] in Hsteps, Hwhole. rewrite !app_nil_r in Hwhole.
  assert (Hlen : length o1.2 = length b1.2).
  { inversion Hf as [|? ? ? ? [_ [H _]]]; subst. exact H. }
  eexists. eexists. eexists.
  split; [exact Hsteps|]. split; [reflexivity|].
  split; [|split; [exact Hwhole|]].
  - cbn [progress_bar totals]. unfold metric_total. cbn [fold_left length].
    rewrite !scores_of_val_acc by assumption. rewrite Hall, Hnone.
    assert (HM1 : (0 < inject_Z (Z.of_nat (length b1.2)))%Q).
    { apply inject_nat_pos. destruct b1.2; [done|cbn [length]; lia]. }
    assert (HM2 : (0 < inject_Z (Z.of_nat (length b2.2)))%Q).
    { apply inject_nat_pos. destruct b2.2; [done|cbn [length]; lia]. }
    change (of_count 0) with (fin 0). rewrite !fadd_fin.
    rewrite (fdiv_fin_count _ 2) by lia.
    change (inject_Z (Z.of_nat 2)) with 2%Q.
    change (inject_Z (Z.of_nat 0)) with 0%Q.
    change (Fin (1 # 2)) with (fin (1 # 2)). apply fin_Qeq.
    set (M1 := inject_Z (Z.of_nat (length b1.2))) in *.
    set (M2 := inject_Z (Z.of_nat (length b2.2))) in *.
    field. split; intros E; [rewrite E in HM2|rewrite E in HM1];
      by eapply Qlt_irrefl.
  - unfold scores_of. cbn [val_acc].
    destruct (scores_of_app loss loss loss o1.2 o2.2 b1.2 b2.2 Hlen)
      as (_ & _ & _ & ->).
    by rewrite Hall, Hnone, Nat.add_0_r, length_app.
Qed.

End validation_facts.

(** ** The validation epoch on the example batches *)

Section validation_instances.
Import torch model spec EmotionModel examples.

Lemma example_batches_forwarded :
  Forall2 (fun (b : list (list Q) * unit * list Z) (o : tfloat * list (list Q)) =>
             toy_forward b.1.1 b.1.2 b.2 = Ok o /\ class_batch o.2 b.2)
          example_batches example_outs.
Proof.
  assert (Hex : forall (row : list Q) (l p : Z),
            argmax row = Ok p -> 0 <= l <= 3 -> 0 <= p <= 3 ->
            class_example (row, l)).
  { intros row l p Hp Hl Hc. split; [exact Hl|]. exists p. by split. }
  constructor; [|constructor; [|constructor]].
  - split; [reflexivity|]. split; [reflexivity|].
    cbn [take drop zip zip_with fst snd].
    constructor; [apply (Hex _ _ 1); [reflexivity|lia..]|].
    constructor; [apply (Hex _ _ 1); [reflexivity|lia..]|]. constructor.
  - split; [reflexivity|]. split; [reflexivity|].
    cbn [take drop zip zip_with fst snd].
    constructor; [apply (Hex _ _ 2); [reflexivity|lia..]|].
    constructor; [apply (Hex _ _ 0); [reflexivity|lia..]|]. constructor.
Qed.

Lemma validation_end_counts_whole_set_witness :
  exists outputs r s,
    mapM (validation_step toy_forward) example_batches = Ok outputs
    /\ validation_end outputs = Ok r
    /\ metrics NaN (concat (map snd example_outs))
                   (concat (map snd example_batches)) = Ok s
    /\ tp (totals (progress_bar r)) = tp s
    /\ fp (totals (progress_bar r)) = fp s
    /\ fn (totals (progress_bar r)) = fn s
    /\ prec_rec_f1 (progress_bar r)
       = f1_score (of_count (tp s)) (of_count (fp s)) (of_count (fn s))
    /\ log r = progress_bar r
    /\ val_loss r = model.val_loss (totals (progress_bar r)).
Proof.
  apply (validation_end_counts_whole_set toy_forward NaN example_batches
           example_outs);
    [discriminate|apply example_batches_forwarded|reflexivity].
Defined.

Lemma uneven_batches_forwarded :
  Forall2 (fun (b : list (list Q) * unit * list Z) (o : tfloat * list (list Q)) =>
             toy_forward b.1.1 b.1.2 b.2 = Ok o /\ class_batch o.2 b.2)
          [ (take 1 example_logits, tt, [1]); (drop 1 example_logits, tt, [2; 0; 1]) ]
          [ (Fin 2, take 1 example_logits); (Fin 2, drop 1 example_logits) ].
Proof.
  assert (Hex : forall (row : list Q) (l p : Z),
            argmax row = Ok p -> 0 <= l <= 3 -> 0 <= p <= 3 ->
            class_example (row, l)).
  { intros row l p Hp Hl Hc. split; [exact Hl|]. exists p. by split. }
  constructor; [|constructor; [|constructor]].
  - split; [reflexivity|]. split; [reflexivity|].
    cbn [take drop zip zip_with fst snd].
    constructor; [apply (Hex _ _ 1); [reflexivity|lia..]|]. constructor.
  - split; [reflexivity|]. split; [reflexivity|].
    cbn [take drop zip zip_with fst snd].
    constructor; [apply (Hex _ _ 1); [reflexivity|lia..]|].
    constructor; [apply (Hex _ _ 2); [reflexivity|lia..]|].
    constructor; [apply (Hex _ _ 0); [reflexivity|lia..]|]. constructor.
Qed.

Lemma validation_end_accuracy_unweighted_witness :
  exists outputs r s,
    mapM (validation_step toy_forward)
         [ (take 1 example_logits, tt, [1]); (drop 1 example_logits, tt, [2; 0; 1]) ]
    = Ok outputs
    /\ validation_end outputs = Ok r
    /\ val_acc (totals (progress_bar r)) = Fin (1 # 2)
    /\ metrics NaN (take 1 example_logits ++ drop 1 example_logits)
                   ([1] ++ [2; 0; 1]) = Ok s
    /\ val_acc s = ratio_of_counts (length [1]) (length [1] + length [2; 0; 1]).
Proof.
  apply (validation_end_accuracy_unweighted toy_forward NaN
           (take 1 example_logits, tt, [1]) (drop 1 example_logits, tt, [2; 0; 1])
           (Fin 2, take 1 example_logits) (Fin 2, drop 1 example_logits));
    [apply uneven_batches_forwarded|discriminate|discriminate
    |reflexivity|reflexivity|reflexivity].
Defined.

End validation_instances.

(** ** The context classifier on malformed inputs *)

Section context_classifier_errors.
Import torch model model.context_classifier_model spec.

Context {E V : Type}.
Variable projection : E -> V.
Variable position_embeds : nat -> V.
Variable norm : V -> V.
Variable drop : nat -> nat -> V -> V.
Variable add : V -> V -> V.
Variable context_transformer_logits : list (list V) -> list (list Q).
Variable cross_entropy : nat -> list (list Q) -> list Z -> tfloat.
Variable others_label : Z.
Variable bin_loss_fct : list Q -> list tfloat -> tfloat.

Local Abbreviation forward_at :=
  (forward projection position_embeds norm drop add
     context_transformer_logits cross_entropy others_label bin_loss_fct).

Lemma position_ids_of_error (sentence_embeds : list (list E)) :
  ~ Forall (fun turns => length turns = 3%nat) sentence_embeds ->
  position_ids_of sentence_embeds = Raise RuntimeError.
Proof.
  unfold position_ids_of.
  induction sentence_embeds as [|turns rest IH]; intros H.
  - exfalso. apply H. constructor.
  - cbn [mapM]. destruct (Nat.eqb_spec (length turns) 3) as [Hlen|Hlen].
    + cbn [mbind result_bind]. rewrite IH; [reflexivity|].
      intros Hrest. apply H. by constructor.
    + reflexivity.
Qed.

(** X15. The classifier wants three turns in every item of the batch: then it
    returns the logits of the head when it gets no labels; and when some
    item holds another number of turns it raises a RuntimeError, with
    labels or without, before the head is called. *)
Theorem forward_three_turns (sentence_embeds : list (list E)) :
  (Forall (fun turns => length turns = 3%nat) sentence_embeds ->
     exists logits,
       forward projection position_embeds norm drop add context_transformer_logits
         cross_entropy others_label bin_loss_fct sentence_embeds None
       = Ok (logits_only logits))
  /\ (~ Forall (fun turns => length turns = 3%nat) sentence_embeds ->
        forall labels : option (list Z),
          forward projection position_embeds norm drop add context_transformer_logits
            cross_entropy others_label bin_loss_fct sentence_embeds labels
          = Raise RuntimeError).
Proof.
  split.
  - intros H3. unfold forward.
    rewrite (inputs_embeds_of_three _ _ _ _ _ _ H3). cbn [mbind result_bind].
    eexists. reflexivity.
  - intros H3 labels. unfold forward, inputs_embeds_of.
    by rewrite (position_ids_of_error _ H3).
Qed.

Lemma norm_index4_mod (c : Z) :
  index4 c -> norm_index 4 c = Ok (Z.to_nat (c mod 4)).
Proof.
  unfold index4, norm_index. intros Hc.
  destruct (Z.leb_spec 0 c), (Z.ltb_spec c (Z.of_nat 4)); cbn [andb]; try lia.
  - by rewrite Z.mod_small by lia.
  - destruct (Z.leb_spec (- Z.of_nat 4) c), (Z.ltb_spec c 0); cbn [andb]; try lia.
    do 2 f_equal. replace c with (c + Z.of_nat 4 + (-1) * 4) at 2 by lia.
    rewrite Z.mod_add by lia. rewrite Z.mod_small by lia. reflexivity.
Qed.

Lemma column_index4 (logits : list (list Q)) (c : Z) :
  Forall (fun row => length row = 4%nat) logits ->
  index4 c ->
  column logits c = Ok (map (fun row => nth (Z.to_nat (c mod 4)) row 0%Q) logits).
Proof.
  intros H4 Hc. unfold column.
  assert (Hj : (Z.to_nat (c mod 4) < 4)%nat).
  { assert (H := Z.mod_pos_bound c 4 ltac:(lia)). lia. }
  induction H4 as [|row rest Hlen _ IH]; [reflexivity|].
  cbn [mapM map]. rewrite Hlen, (norm_index4_mod c Hc).
  cbn [mbind result_bind].
  destruct (lookup_lt_is_Some_2 row (Z.to_nat (c mod 4)) ltac:(lia)) as [x Hx].
  rewrite Hx. cbn [from_option mbind result_bind]. rewrite IH.
  cbn [mbind result_bind mret result_ret]. do 2 f_equal.
  symmetry. apply nth_lookup_Some with (d := 0%Q) in Hx. exact Hx.
Qed.

Lemma column_not_index4 (row : list Q) (rest : list (list Q)) (c : Z) :
  length row = 4%nat -> ~ index4 c ->
  column (row :: rest) c = Raise IndexError.
Proof.
  intros Hlen Hc. unfold column. cbn [mapM]. rewrite Hlen.
  by rewrite (norm_index4_error c Hc).
Qed.

(** X16. The binary loss reads the logit at the index of "others", counted
    from either end: with a head of four logits for each item, labels that
    the head takes and an index from -4 to 3, [forward] returns the sum of
    the head's loss and of the binary loss of the logits at that index
    (the index plus 4 when it is negative) against the labels equal to
    [others_label]. *)
Theorem forward_others_index (sentence_embeds : list (list E)) (labels : list Z) :
  Forall (fun turns => length turns = 3%nat) sentence_embeds ->
  (forall inputs_embeds,
      length (context_transformer_logits inputs_embeds) = length inputs_embeds
      /\ Forall (fun row => length row = 4%nat)
                (context_transformer_logits inputs_embeds)) ->
  valid_labels (length sentence_embeds) labels ->
  index4 others_label ->
  exists inputs_embeds,
    inputs_embeds_of projection position_embeds norm drop add sentence_embeds
    = Ok inputs_embeds
    /\ let logits := context_transformer_logits inputs_embeds in
       forward projection position_embeds norm drop add context_transformer_logits
         cross_entropy others_label bin_loss_fct sentence_embeds (Some labels)
       = Ok (loss_and_logits
               (fadd (cross_entropy 4 logits labels)
                     (bin_loss_fct
                        (map (fun row => nth (Z.to_nat (others_label mod 4)) row 0%Q)
                             logits)
                        (bin_labels_of others_label labels)))
               logits).
Proof.
  intros H3 Hhead _ Hc.
  assert (Hin := inputs_embeds_of_three projection position_embeds norm drop add
                   _ H3).
  eexists. split; [exact Hin|]. cbv zeta.
  unfold forward. rewrite Hin. cbn [mbind result_bind context_transformer].
  unfold bin_loss.
  rewrite (column_index4 _ _ (proj2 (Hhead _)) Hc). reflexivity.
Qed.

(** X24. With an index of "others" that is none of the four logits, the call
    of [forward] with labels that the head takes, on a batch that is not
    empty, raises an IndexError when the binary loss reads its logit,
    while the call without labels returns the logits. *)
Theorem forward_others_index_error (sentence_embeds : list (list E))
    (labels : list Z) :
  Forall (fun turns => length turns = 3%nat) sentence_embeds ->
  sentence_embeds <> [] ->
  (forall inputs_embeds,
      length (context_transformer_logits inputs_embeds) = length inputs_embeds
      /\ Forall (fun row => length row = 4%nat)
                (context_transformer_logits inputs_embeds)) ->
  valid_labels (length sentence_embeds) labels ->
  ~ index4 others_label ->
  forward projection position_embeds norm drop add context_transformer_logits
    cross_entropy others_label bin_loss_fct sentence_embeds (Some labels)
  = Raise IndexError
  /\ exists logits,
       forward projection position_embeds norm drop add context_transformer_logits
         cross_entropy others_label bin_loss_fct sentence_embeds None
       = Ok (logits_only logits).
Proof.
  intros H3 Hne Hhead _ Hc.
  assert (Hin := inputs_embeds_of_three projection position_embeds norm drop add
                   _ H3).
  unfold forward. rewrite Hin. cbn [mbind result_bind context_transformer].
  set (inputs := imap _ sentence_embeds) in *.
  destruct (Hhead inputs) as [Hlen H4].
  split; [|eexists; reflexivity].
  unfold bin_loss.
  destruct (context_transformer_logits inputs) as [|row rest] eqn:El.
  - exfalso. unfold inputs in Hlen. rewrite length_imap in Hlen.
    destruct sentence_embeds; [done|discriminate Hlen].
  - apply Forall_cons in H4. destruct H4 as [Hrow _].
    by rewrite (column_not_index4 row rest _ Hrow Hc).
Qed.

End context_classifier_errors.

Section context_classifier_instances.
Import torch model model.context_classifier_model spec examples.

Lemma toy_head_logits_shape (inputs_embeds : list (list Z)) :
  length (toy_head_logits inputs_embeds) = length inputs_embeds
  /\ Forall (fun row => length row = 4%nat) (toy_head_logits inputs_embeds).
Proof.
  split; [apply length_map|apply toy_head_logits_width].
Qed.

Lemma forward_others_index_witness :
  exists inputs_embeds,
    inputs_embeds_of (fun e : Z => e) toy_position_embeds (fun v => v) toy_drop Z.add
      example_embeds = Ok inputs_embeds
    /\ let logits := toy_head_logits inputs_embeds in
       forward (fun e : Z => e) toy_position_embeds (fun v => v) toy_drop Z.add
         toy_head_logits toy_cross_entropy (-1) toy_bin_loss_fct example_embeds
         (Some [1])
       = Ok (loss_and_logits
               (fadd (toy_cross_entropy 4 logits [1])
                     (toy_bin_loss_fct
                        (map (fun row => nth (Z.to_nat ((-1) mod 4)) row 0%Q) logits)
                        (bin_labels_of (-1) [1])))
               logits).
Proof.
  apply (forward_others_index (fun e : Z => e) toy_position_embeds (fun v => v)
           toy_drop Z.add toy_head_logits toy_cross_entropy (-1) toy_bin_loss_fct
           example_embeds [1]).
  - repeat constructor.
  - exact toy_head_logits_shape.
  - split; [reflexivity|]. repeat constructor; unfold class_id; lia.
  - unfold index4. lia.
Defined.

Lemma forward_others_index_error_witness :
  forward (fun e : Z => e) toy_position_embeds (fun v => v) toy_drop Z.add
    toy_head_logits toy_cross_entropy 4 toy_bin_loss_fct example_embeds (Some [1])
  = Raise IndexError
  /\ exists logits,
       forward (fun e : Z => e) toy_position_embeds (fun v => v) toy_drop Z.add
         toy_head_logits toy_cross_entropy 4 toy_bin_loss_fct example_embeds None
       = Ok (logits_only logits).
Proof.
  apply (forward_others_index_error (fun e : Z => e) toy_position_embeds
           (fun v => v) toy_drop Z.add toy_head_logits toy_cross_entropy 4
           toy_bin_loss_fct example_embeds [1]).
  - repeat constructor.
  - discriminate.
  - exact toy_head_logits_shape.
  - split; [reflexivity|]. repeat constructor; unfold class_id; lia.
  - unfold index4. lia.
Defined.

End context_classifier_instances.

(** ** transform_data: what the mask counts, and tokenizers that do not
    truncate *)

Section transform_data_more.
Import dataloader spec.

Variable encode : string -> nat -> list Z.

Lemma pad_length_max (max_seq_len : nat) (ids : list Z) :
  length (pad max_seq_len ids) = Nat.max max_seq_len (length ids).
Proof. unfold pad. rewrite length_app, length_replicate. lia. Qed.




Lemma concat_padded_rows (df : list conversation) (max_seq_len : nat) :
  concat (map (fun idx => map (pad max_seq_len) idx)
              (map (fun r => map (tokenize_fct encode max_seq_len)
                                 [turn1 r; turn2 r; turn3 r]) df))
  = map (fun turn => pad max_seq_len (encode turn max_seq_len)) (turns_of df).
Proof.
  induction df as [|r df IH]; [reflexivity|].
  unfold turns_of in *. cbn [map concat]. rewrite map_app, <- IH. reflexivity.
Qed.

(** X18. The padding never truncates: a list of more than [max_seq_len] ids
    keeps its length. So [transform_data] returns its tensors when all turns
    come out at one length L, of the shape (N, 3, L) for a frame of N
    conversations and (0,) for the frame without conversations, and raises
    a ValueError as soon as two turns of the data frame come out at
    different lengths, which a tokenizer that goes over [max_seq_len] for
    one of them brings about. *)
Theorem transform_data_ragged (df : list conversation) (max_seq_len : nat) :
  (forall ids : list Z,
      length (pad max_seq_len ids) = Nat.max max_seq_len (length ids))
  /\ (forall L : nat,
        Forall (fun turn => padded_length encode max_seq_len turn = L) (turns_of df) ->
        exists padded attention_mask,
          transform_data encode df max_seq_len = Ok (padded, attention_mask)
          /\ shape_of padded
             = match df with
               | [] => [0%nat]
               | _ :: _ => [length df; 3%nat; L]
               end
          /\ shape_of attention_mask = shape_of padded)
  /\ (forall turn turn' : string,
        In turn (turns_of df) -> In turn' (turns_of df) ->
        padded_length encode max_seq_len turn
        <> padded_length encode max_seq_len turn' ->
        transform_data encode df max_seq_len = Raise ValueError).
Proof.
  split; [apply pad_length_max|]. split.
  - intros L HL. unfold transform_data. cbv zeta.
    assert (Hrows : Forall (Forall (fun ids => length ids = L))
              (map (fun idx => map (pad max_seq_len) idx)
                   (map (fun r => map (tokenize_fct encode max_seq_len)
                                      [turn1 r; turn2 r; turn3 r]) df))).
    { unfold turns_of in HL. induction df as [|r df IH]; [constructor|].
      cbn [map concat] in HL. apply Forall_app in HL. destruct HL as [Hr Hdf].
      cbn [map]. constructor; [|by apply IH].
      inversion Hr as [|? ? H1 Hr1]; subst. inversion Hr1 as [|? ? H2 Hr2]; subst.
      inversion Hr2 as [|? ? H3 _]; subst.
      repeat constructor; assumption. }
    rewrite (torch_tensor_rectangular _ L Hrows). cbn [mbind result_bind].
    eexists. eexists. split; [reflexivity|].
    split; [|apply shape_of_map].
    destruct df as [|r df]; [reflexivity|].
    cbn [map shape_of length]. rewrite !length_map.
    apply Forall_cons in Hrows. destruct Hrows as [Hr _].
    apply Forall_cons in Hr. destruct Hr as [H1 _].
    by rewrite H1.
  - intros turn turn' Hin Hin' Hne. unfold transform_data, torch_tensor.
    cbv zeta. rewrite concat_padded_rows.
    destruct (turns_of df) as [|t0 ts] eqn:Et; [destruct Hin|].
    cbn [map].
    destruct (forallb _ _) eqn:Hall; [|reflexivity].
    exfalso. rewrite forallb_forall in Hall.
    assert (Hlen : forall t, In t (t0 :: ts) ->
              padded_length encode max_seq_len t = padded_length encode max_seq_len t0).
    { intros t Ht. unfold padded_length. apply Nat.eqb_eq.
      apply (Hall (pad max_seq_len (encode t max_seq_len))).
      change (In (pad max_seq_len (encode t max_seq_len))
                 (map (fun turn => pad max_seq_len (encode turn max_seq_len))
                      (t0 :: ts))).
      by apply (in_map (fun turn => pad max_seq_len (encode turn max_seq_len))). }
    apply Hne. by rewrite (Hlen turn Hin), (Hlen turn' Hin').
Qed.

End transform_data_more.

Section transform_data_instances.
Import dataloader spec examples.


End transform_data_instances.

(** ** layerwise_lr at any depth *)

Section layerwise_lr_more.
Import model.

(** X19. At any depth of the encoder, with a positive rate and a decay between
    0 and 1: the rates of the transformer layers grow strictly with the
    layer index; the first layer has the smallest rate of all groups, below
    the one of the embeddings; and from two layers on the embeddings get
    exactly the rate of the second layer. *)
Theorem layerwise_lr_order (num_layers : nat) (lr decay : Q) :
  (0 < lr)%Q -> (0 < decay)%Q -> (decay < 1)%Q ->
  (forall (l l' : nat) (g g' : param_group),
      (l < l')%nat -> (l' < num_layers)%nat ->
      layerwise_lr num_layers lr decay !! S l = Some g ->
      layerwise_lr num_layers lr decay !! S l' = Some g' ->
      (model.lr g < model.lr g')%Q)
  /\ (forall (i : nat) (g1 g : param_group),
        layerwise_lr num_layers lr decay !! 1%nat = Some g1 ->
        layerwise_lr num_layers lr decay !! i = Some g ->
        i <> 1%nat ->
        (model.lr g1 < model.lr g)%Q)
  /\ (forall g0 g2 : param_group,
        layerwise_lr num_layers lr decay !! 0%nat = Some g0 ->
        layerwise_lr num_layers lr decay !! 2%nat = Some g2 ->
        model.lr g2 = model.lr g0).
Proof.
  intros Hlr Hpos Hlt. split; [|split].
  - intros l l' g g' Hll Hl' Hg Hg'.
    by apply (layerwise_lr_layers_increasing num_layers lr decay l l' g g').
  - intros i g1 g Hg1 Hg Hi.
    destruct i as [|[|l]]; [|done|].
    + by destruct (layerwise_lr_first_layer_below_embeddings
                     num_layers lr decay g g1) as (_ & _ & H).
    + assert (Hl : (S l < num_layers)%nat).
      { assert (H := lookup_lt_Some _ _ _ Hg).
        rewrite layerwise_lr_length in H. lia. }
      by apply (layerwise_lr_layers_increasing num_layers lr decay 0 (S l) g1 g);
        try lia.
  - intros g0 g2 Hg0 Hg2.
    assert (Hl : (1 < num_layers)%nat).
    { assert (H := lookup_lt_Some _ _ _ Hg2).
      rewrite layerwise_lr_length in H. lia. }
    rewrite layerwise_lr_embeddings in Hg0.
    rewrite layerwise_lr_layer in Hg2 by lia.
    injection Hg0 as <-. injection Hg2 as <-. cbn [model.lr].
    do 2 f_equal. lia.
Qed.

Lemma layerwise_lr_order_witness :
  (forall (l l' : nat) (g g' : param_group),
      (l < l')%nat -> (l' < 6)%nat ->
      layerwise_lr 6 1 (1 # 2) !! S l = Some g ->
      layerwise_lr 6 1 (1 # 2) !! S l' = Some g' ->
      (model.lr g < model.lr g')%Q)
  /\ (forall (i : nat) (g1 g : param_group),
        layerwise_lr 6 1 (1 # 2) !! 1%nat = Some g1 ->
        layerwise_lr 6 1 (1 # 2) !! i = Some g ->
        i <> 1%nat ->
        (model.lr g1 < model.lr g)%Q)
  /\ (forall g0 g2 : param_group,
        layerwise_lr 6 1 (1 # 2) !! 0%nat = Some g0 ->
        layerwise_lr 6 1 (1 # 2) !! 2%nat = Some g2 ->
        model.lr g2 = model.lr g0).
Proof. apply (layerwise_lr_order 6 1 (1 # 2)); reflexivity. Defined.

End layerwise_lr_more.

(** ** EmotionModel.forward: values and the gradient mode *)

Section forward_values.
Import EmotionModel.

Context {Ids Mask Emb Out : Type}.
Variable sentence_embeds_model : Ids -> Mask -> Emb.
Variable context_classifier_model : Emb -> option (list Z) -> Out.

(** X20. Freezing changes what autograd records and nothing else: whatever
    the epoch, the number of frozen epochs and the gradient mode at the
    call, [forward] returns the classifier's result on the encoder's
    embeddings, and leaves the epoch and the gradient mode as it found
    them; in the frozen phase nothing of the encoder is recorded even when
    the caller records. *)
Theorem forward_value_and_mode (frozen_epochs : Z) (input_ids : Ids)
    (attention_mask : Mask) (labels : option (list Z)) (s : state) :
  let r := forward sentence_embeds_model context_classifier_model frozen_epochs
             input_ids attention_mask labels s in
  value r.1
  = context_classifier_model (sentence_embeds_model input_ids attention_mask) labels
  /\ r.2 = s
  /\ (recorded r.1 = true
      <-> grad_enabled s = true /\ frozen_epochs <= current_epoch s).
Proof.
  cbv zeta. split; [|split].
  - unfold forward. by destruct (current_epoch s <? frozen_epochs).
  - apply forward_state.
  - rewrite forward_recorded. unfold frozen.
    destruct (Z.ltb_spec (current_epoch s) frozen_epochs) as [H|H].
    + split; [discriminate|]. intros [_ H']. lia.
    + split; [by intros ->|by intros [-> _]].
Qed.

End forward_values.

(** ** sentence_embeds_model.forward: which embedding goes where *)

Section sentence_embeds_facts.
Import model model.sentence_embeds_model.

Lemma view3_concat {A : Type} (items : list (list A)) :
  Forall (fun item => length item = 3%nat) items ->
  view3 (concat items) = Ok items.
Proof.
  intros H3. unfold view3.
  assert (Hlen : length (concat items) = (length items * 3)%nat).
  { induction H3 as [|item items Hi _ IH]; [reflexivity|].
    cbn [concat length]. rewrite length_app, IH, Hi. lia. }
  rewrite Hlen, Nat.Div0.mod_mul, Nat.div_mul by lia.
  cbn [Nat.eqb]. f_equal. clear Hlen.
  induction H3 as [|item items Hi _ IH]; [reflexivity|].
  cbn [length replicate reshape concat].
  rewrite take_app_length', drop_app_length' by (symmetry; exact Hi).
  f_equal. exact IH.
Qed.

Lemma view3_not_multiple {A : Type} (rows : list A) :
  (length rows mod 3 <> 0)%nat -> view3 rows = Raise RuntimeError.
Proof.
  intros H. unfold view3.
  by destruct (Nat.eqb_spec (length rows mod 3) 0).
Qed.

Context {H Emb : Type}.
Variable transformer :
  list (list Z) -> list (list Z) -> list (list H) * list (list (list H)).
Variable mean : list H -> H.
Variable cat : H -> H -> Emb.

(** An encoder that works row by row: [enc0] gives the last hidden states of
    a row, whose first vector is [cls0], and [encL] the hidden states that
    close the tuple. *)
Variable enc0 encL : list Z -> list Z -> list H.
Variable cls0 : list Z -> list Z -> H.

Lemma mapM_cls (rows masks : list (list Z)) :
  Forall2 (fun ids mask => enc0 ids mask !! 0%nat = Some (cls0 ids mask)) rows masks ->
  mapM (fun row : list H => from_option Ok (Raise IndexError) (row !! 0%nat))
       (zip_with enc0 rows masks)
  = Ok (zip_with cls0 rows masks).
Proof.
  induction 1 as [|ids mask rows masks Hc _ IH]; [reflexivity|].
  cbn [zip_with mapM]. rewrite Hc. cbn [from_option mbind result_bind].
  rewrite IH. reflexivity.
Qed.

Lemma zip_with_cat_rows (rows masks : list (list Z)) :
  zip_with cat (zip_with cls0 rows masks) (map mean (zip_with encL rows masks))
  = zip_with (fun ids mask => cat (cls0 ids mask) (mean (encL ids mask))) rows masks.
Proof.
  revert masks. induction rows as [|ids rows IH]; intros [|mask masks];
    try reflexivity.
  cbn [zip_with map]. by rewrite IH.
Qed.

Lemma zip_with_concat {A B C : Type} (f : A -> B -> C) (xss : list (list A))
    (yss : list (list B)) :
  Forall2 (fun xs ys => length xs = length ys) xss yss ->
  zip_with f (concat xss) (concat yss) = concat (zip_with (zip_with f) xss yss).
Proof.
  induction 1 as [|xs ys xss yss Hlen _ IH]; [reflexivity|].
  cbn [concat zip_with]. rewrite zip_with_app by exact Hlen. by rewrite IH.
Qed.

(** X21. With an encoder that works row by row, [forward] on ids and masks of
    three turns per item returns, for every item of the batch and in the
    order of the batch, the three embeddings of its turns in their order:
    the first vector of the last hidden states next to the mean of the last
    tuple entry. When the number of turns over the whole batch is no
    multiple of three, it raises a RuntimeError. *)
Theorem forward_turn_embeddings (input_ids attention_mask : list (list (list Z)))
    (layers : list (list (list H))) :
  transformer (concat input_ids) (concat attention_mask)
  = (zip_with enc0 (concat input_ids) (concat attention_mask), layers) ->
  last layers = Some (zip_with encL (concat input_ids) (concat attention_mask)) ->
  Forall2 (fun ids mask => enc0 ids mask !! 0%nat = Some (cls0 ids mask))
          (concat input_ids) (concat attention_mask) ->
  (Forall2 (fun ids masks => length ids = 3%nat /\ length masks = 3%nat)
           input_ids attention_mask ->
     forward transformer mean cat input_ids attention_mask
     = Ok (zip_with (zip_with (fun ids mask => cat (cls0 ids mask)
                                                   (mean (encL ids mask))))
                    input_ids attention_mask))
  /\ ((length (concat input_ids) mod 3 <> 0)%nat ->
      length (concat input_ids) = length (concat attention_mask) ->
      forward transformer mean cat input_ids attention_mask = Raise RuntimeError).
Proof.
  intros Ht Hl Hcls. unfold forward. cbv zeta. rewrite Ht. cbn [fst snd].
  rewrite (mapM_cls _ _ Hcls), Hl. cbn [from_option mbind result_bind].
  rewrite length_map, !length_zip_with, Nat.eqb_refl, zip_with_cat_rows.
  split.
  - intros H3. rewrite zip_with_concat.
    + apply view3_concat. clear -H3.
      induction H3 as [|ids masks iss mss [Hi Hm] _ IH]; constructor; [|exact IH].
      rewrite length_zip_with. lia.
    + clear -H3. induction H3 as [|ids masks iss mss [Hi Hm] _ IH]; constructor;
        [lia|exact IH].
  - intros Hmod Hlen. apply view3_not_multiple.
    rewrite length_zip_with, <- Hlen, Nat.min_id. exact Hmod.
Qed.

End sentence_embeds_facts.

Section sentence_embeds_instances.
Import model model.sentence_embeds_model examples.

Lemma forward_turn_embeddings_witness :
  (Forall2 (fun ids masks : list (list Z) => length ids = 3%nat /\ length masks = 3%nat)
           example_ids example_ids ->
     forward toy_transformer toy_mean pair example_ids example_ids
     = Ok (zip_with (zip_with (fun ids mask : list Z => (hd 0 ids, toy_mean ids)))
                    example_ids example_ids))
  /\ ((length (concat example_ids) mod 3 <> 0)%nat ->
      length (concat example_ids) = length (concat example_ids) ->
      forward toy_transformer toy_mean pair example_ids example_ids
      = Raise RuntimeError).
Proof.
  apply (forward_turn_embeddings toy_transformer toy_mean pair
           (fun ids _ => ids) (fun ids _ => ids) (fun ids _ => hd 0 ids)
           example_ids example_ids [concat example_ids; concat example_ids]).
  - reflexivity.
  - reflexivity.
  - repeat constructor.
Defined.

End sentence_embeds_instances.

(** ** dataloader: the dataset and its errors *)

Section dataloader_facts.
Import dataloader spec.

Variable open_data : string -> list conversation.
Variable encode : string -> nat -> list Z.

Lemma length_padded_rows (df : list conversation) (max_seq_len : nat) :
  length (padded_rows encode df max_seq_len) = length df.
Proof. unfold padded_rows. apply length_map. Qed.

(** X22. On a data frame that is not empty and whose labels are all keys of
    the dictionary, with a tokenizer that keeps to [max_seq_len] on its
    turns and a positive batch size, [dataloader] returns a loader and
    never trips the assertion of [TensorDataset] nor the checks of
    [DataLoader]: the dataset has one example for each row, made of its
    padded ids, its mask and the id of its label; the loader shuffles
    exactly when it has no sampler, that is without ddp; and it has 3
    workers. *)
Theorem dataloader_labelled (path : string) (max_seq_len : nat) (bs : Z)
    (emo_dict : gmap string Z) (use_ddp : bool) :
  0 < bs ->
  open_data path <> [] ->
  truncated encode (open_data path) max_seq_len ->
  Forall (known emo_dict) (open_data path) ->
  exists examples dl,
    dataloader open_data encode path max_seq_len bs emo_dict use_ddp true = inr dl
    /\ dataset dl = with_labels examples
    /\ length examples = length (open_data path)
    /\ (forall (i : nat) (r : conversation),
          open_data path !! i = Some r ->
          exists v,
            emo_dict !! label r = Some v
            /\ examples !! i
               = Some (map (fun turn => pad max_seq_len (encode turn max_seq_len))
                           [turn1 r; turn2 r; turn3 r],
                       map (fun turn => map attention_of
                                          (pad max_seq_len (encode turn max_seq_len)))
                           [turn1 r; turn2 r; turn3 r],
                       v))
    /\ batch_size dl = bs
    /\ shuffle dl = negb use_ddp
    /\ (sampler dl = None <-> use_ddp = false)
    /\ num_workers dl = 3.
Proof.
  intros Hbs Hne Htr Hknown. unfold dataloader. cbv zeta.
  rewrite (transform_data_ok encode _ _ Htr).
  destruct (get_labels_known emo_dict _ Hknown) as (ls & -> & Hls).
  unfold TensorDataset3.
  rewrite length_map, length_padded_rows, Nat.eqb_refl.
  rewrite <- (Forall2_length _ _ _ Hls), Nat.eqb_refl. cbn [andb].
  unfold DataLoader. cbn [dataset_length].
  assert (Hlen : length (zip (zip (padded_rows encode (open_data path) max_seq_len)
                                  (map (map (map attention_of))
                                       (padded_rows encode (open_data path) max_seq_len)))
                             ls) = length (open_data path)).
  { rewrite !length_zip_with, length_map, length_padded_rows.
    rewrite <- (Forall2_length _ _ _ Hls). lia. }
  rewrite Hlen.
  destruct (Nat.eqb_spec (length (open_data path)) 0) as [H0|_];
    [by destruct (open_data path)|].
  destruct (Z.leb_spec bs 0) as [?|_]; [lia|].
  assert (Hex : forall (i : nat) (r : conversation),
            open_data path !! i = Some r ->
            exists v,
              emo_dict !! label r = Some v
              /\ zip (zip (padded_rows encode (open_data path) max_seq_len)
                          (map (map (map attention_of))
                               (padded_rows encode (open_data path) max_seq_len)))
                     ls !! i
                 = Some (map (fun turn => pad max_seq_len (encode turn max_seq_len))
                             [turn1 r; turn2 r; turn3 r],
                         map (fun turn => map attention_of
                                            (pad max_seq_len (encode turn max_seq_len)))
                             [turn1 r; turn2 r; turn3 r],
                         v)).
  { intros i r Hi.
    destruct (Forall2_lookup_l _ _ _ _ _ Hls Hi) as (v & Hv & Hrv).
    exists v. split; [exact Hrv|].
    rewrite !lookup_zip_with, Hv.
    unfold padded_rows. change (map ?g ?xs) with (g <$> xs).
    rewrite !list_lookup_fmap, Hi. reflexivity. }
  destruct use_ddp; cbn [orb andb Z.ltb Z.compare negb];
    (eexists; eexists; split; [reflexivity|]);
    cbn [dataset batch_size shuffle sampler num_workers];
    (split; [reflexivity|]); (split; [exact Hlen|]); (split; [exact Hex|]);
    repeat split; try reflexivity; try discriminate; done.
Qed.

(** X23. The labels are only read when they are asked for. On a data frame
    that is not empty, with a tokenizer that keeps to [max_seq_len] on its
    turns and a positive batch size: with [labels=False] the loader is
    built, one example of ids and mask for each row, whatever the labels;
    with [labels=True] the first label that is no key of the dictionary
    raises its KeyError, the tokenization being done. *)
Theorem dataloader_labels_on_demand (path : string) (max_seq_len : nat) (bs : Z)
    (emo_dict : gmap string Z) (use_ddp : bool) :
  0 < bs ->
  open_data path <> [] ->
  truncated encode (open_data path) max_seq_len ->
  (exists examples dl,
     dataloader open_data encode path max_seq_len bs emo_dict use_ddp false = inr dl
     /\ dataset dl = without_labels examples
     /\ length examples = length (open_data path))
  /\ (forall (before after : list conversation) (r : conversation),
        open_data path = before ++ r :: after ->
        Forall (known emo_dict) before ->
        emo_dict !! label r = None ->
        dataloader open_data encode path max_seq_len bs emo_dict use_ddp true
        = inl (Exn (KeyError (label r)))).
Proof.
  intros Hbs Hne Htr. unfold dataloader. cbv zeta.
  rewrite (transform_data_ok encode _ _ Htr). split.
  - unfold TensorDataset2. rewrite length_map, Nat.eqb_refl.
    unfold DataLoader. cbn [dataset_length].
    assert (Hlen : length (zip (padded_rows encode (open_data path) max_seq_len)
                               (map (map (map attention_of))
                                    (padded_rows encode (open_data path) max_seq_len)))
                   = length (open_data path)).
    { rewrite length_zip_with, length_map, length_padded_rows. lia. }
    rewrite Hlen.
    destruct (Nat.eqb_spec (length (open_data path)) 0) as [H0|_];
      [by destruct (open_data path)|].
    destruct (Z.leb_spec bs 0) as [?|_]; [lia|].
    destruct use_ddp; cbn [orb andb Z.ltb Z.compare];
      (eexists; eexists; split; [reflexivity|]);
      cbn [dataset]; (split; [reflexivity|exact Hlen]).
  - intros before after r Hdf Hbefore Hr.
    assert (Hg : get_labels (open_data path) emo_dict = Raise (KeyError (label r))).
    { rewrite Hdf. by apply get_labels_unknown. }
    rewrite Hg. reflexivity.
Qed.

(** X25. A data frame without rows gives no loader outside ddp: the
    tensors of [transform_data] and of [get_labels] are empty, the dataset
    is built, and [DataLoader], asked to shuffle, raises a ValueError, with
    labels or without and whatever the batch size. *)
Theorem dataloader_empty_frame (path : string) (max_seq_len : nat) (bs : Z)
    (emo_dict : gmap string Z) (labels : bool) :
  open_data path = [] ->
  dataloader open_data encode path max_seq_len bs emo_dict false labels
  = inl (Exn ValueError).
Proof.
  intros Hdf. unfold dataloader. cbv zeta. rewrite Hdf.
  destruct labels; reflexivity.
Qed.

End dataloader_facts.

Section dataloader_instances.
Import dataloader spec examples.

Lemma dataloader_labelled_witness :
  exists examples dl,
    dataloader (fun _ => example_df) toy_encode "data/clean_val.txt" 12 64
               EmotionModel.emo_dict false true = inr dl
    /\ dataset dl = with_labels examples
    /\ length examples = length example_df
    /\ (forall (i : nat) (r : conversation),
          example_df !! i = Some r ->
          exists v,
            EmotionModel.emo_dict !! label r = Some v
            /\ examples !! i
               = Some (map (fun turn => pad 12 (toy_encode turn 12))
                           [turn1 r; turn2 r; turn3 r],
                       map (fun turn => map attention_of (pad 12 (toy_encode turn 12)))
                           [turn1 r; turn2 r; turn3 r],
                       v))
    /\ batch_size dl = 64
    /\ shuffle dl = negb false
    /\ (sampler dl = None <-> false = false)
    /\ num_workers dl = 3.
Proof.
  apply (dataloader_labelled (fun _ => example_df) toy_encode
           "data/clean_val.txt" 12 64 EmotionModel.emo_dict false);
    [lia|discriminate| |].
  - apply Forall_forall. intros turn _. apply toy_encode_max_length.
  - constructor; [|constructor]. exists 3. vm_compute. reflexivity.
Defined.

Lemma dataloader_labels_on_demand_witness :
  (exists examples dl,
     dataloader (fun _ => [row_with "joy"]) toy_encode "data/clean_val.txt" 12 64
                EmotionModel.emo_dict true false = inr dl
     /\ dataset dl = without_labels examples
     /\ length examples = length [row_with "joy"])
  /\ (forall (before after : list conversation) (r : conversation),
        [row_with "joy"] = before ++ r :: after ->
        Forall (known EmotionModel.emo_dict) before ->
        EmotionModel.emo_dict !! label r = None ->
        dataloader (fun _ => [row_with "joy"]) toy_encode "data/clean_val.txt" 12 64
                   EmotionModel.emo_dict true true
        = inl (Exn (KeyError (label r)))).
Proof.
  apply (dataloader_labels_on_demand (fun _ => [row_with "joy"]) toy_encode
           "data/clean_val.txt" 12 64 EmotionModel.emo_dict true);
    [lia|discriminate|].
  apply Forall_forall. intros turn _. apply toy_encode_max_length.
Defined.

Lemma dataloader_empty_frame_witness :
  dataloader (fun _ => []) toy_encode "data/clean_val.txt" 12 64
             EmotionModel.emo_dict false true
  = inl (Exn ValueError).
Proof.
  apply (dataloader_empty_frame (fun _ => []) toy_encode "data/clean_val.txt" 12 64
           EmotionModel.emo_dict true).
  reflexivity.
Defined.

End dataloader_instances.
